(** * The sentence state machine of the Coq language server (server/src/STM.ts)

    A shallow embedding of the class [CoqStateMachine]: its fields become a
    record, its methods become computations in a state-and-exception monad,
    the sentence objects live in an arena addressed by references (so that
    [==] on sentences is reference equality and a status update made
    through the state-id index is seen through every other pointer), and
    the editor callbacks and backend requests are recorded in a trace.

    The modules [text-util], [STMSentence], [coq-proto] and [coqtop] are
    imported by STM.ts but are not part of the sources at hand; what the
    state machine needs from them is modelled from the specification and
    marked as such. *)

From Stdlib Require Import Ascii String.
From stdpp Require Import base option list gmap strings sorting.

(** ** Positions and ranges (vscode-languageserver) *)

Record Position := mkPosition { line : nat; character : nat }.
Record Range := mkRange { start : Position; end_ : Position }.

#[global] Instance Position_eq_dec : EqDecision Position.
Proof. solve_decision. Defined.
#[global] Instance Range_eq_dec : EqDecision Range.
Proof. solve_decision. Defined.

Module textUtil.

(** Modelled from the spec: text-util.ts is missing.  "positionIsBefore /
    After / Equal: total ordering by (line, character)." *)
Definition positionIsEqual (p q : Position) : bool :=
  (line p =? line q) && (character p =? character q).

Definition positionIsBefore (p q : Position) : bool :=
  (line p <? line q) || ((line p =? line q) && (character p <? character q)).

Definition positionIsAfter (p q : Position) : bool := positionIsBefore q p.

Definition positionIsBeforeOrEqual (p q : Position) : bool :=
  positionIsBefore p q || positionIsEqual p q.

Definition positionIsAfterOrEqual (p q : Position) : bool :=
  positionIsAfter p q || positionIsEqual p q.

Definition newline : Ascii.ascii := "010"%char.

(** Modelled from the spec: "given an anchor position and a string, return
    the position reached after consuming [offset] characters of [text] from
    the anchor." *)
Fixpoint positionAtRelative (anchor : Position) (text : string) (offset : nat)
  : Position :=
  match offset, text with
  | S n, String c rest =>
      positionAtRelative
        (if Ascii.eqb c newline
         then mkPosition (S (line anchor)) 0
         else mkPosition (line anchor) (S (character anchor)))
        rest n
  | _, _ => anchor
  end.

Fixpoint countNewlines (text : string) : nat :=
  match text with
  | EmptyString => 0
  | String c rest => (if Ascii.eqb c newline then 1 else 0) + countNewlines rest
  end.

(** Length of the text after its last newline. *)
Fixpoint lastLineLength (text : string) : nat :=
  match text with
  | EmptyString => 0
  | String c rest =>
      if Ascii.eqb c newline then lastLineLength rest
      else if countNewlines rest =? 0 then S (String.length rest)
      else lastLineLength rest
  end.

Record RangeDelta := mkRangeDelta {
  deltaLine : nat;          (* the line on which the replaced range ends *)
  linesDelta : Z;
  charactersDelta : Z
}.

(** Modelled from the spec: "returns a delta describing how much every
    position at or after [range.end] shifts: a line_delta (lines added minus
    lines removed) and, for positions on the edit's last affected line, a
    character_delta." *)
Definition toRangeDelta (range : Range) (text : string) : RangeDelta :=
  let added := countNewlines text in
  let removed := line (end_ range) - line (start range) in
  let newEndCharacter :=
    if added =? 0 then character (start range) + String.length text
    else lastLineLength text in
  mkRangeDelta (line (end_ range))
    (Z.of_nat added - Z.of_nat removed)
    (Z.of_nat newEndCharacter - Z.of_nat (character (end_ range))).

Definition positionTranslate (d : RangeDelta) (p : Position) : Position :=
  mkPosition
    (Z.to_nat (Z.of_nat (line p) + linesDelta d))
    (if line p =? deltaLine d
     then Z.to_nat (Z.of_nat (character p) + charactersDelta d)
     else character p).

Definition rangeTranslate (d : RangeDelta) (r : Range) : Range :=
  mkRange (positionTranslate d (start r)) (positionTranslate d (end_ r)).

End textUtil.

Import textUtil.

(** ** Protocol data *)

Abbreviation StateId := nat.

(** Modelled from the spec: coq-proto.ts is missing.  "a status in
    {ProcessingInput, Processed, Incomplete, Complete, InProgress, Error}". *)
Inductive SentenceStatus :=
  | ProcessingInput | Processed | Incomplete | Complete | InProgress | Error.

#[global] Instance SentenceStatus_eq_dec : EqDecision SentenceStatus.
Proof. solve_decision. Defined.

Inductive MessageLevel := Warning | Info | Notice | ErrorLevel | Debug.

#[global] Instance MessageLevel_eq_dec : EqDecision MessageLevel.
Proof. solve_decision. Defined.

Record BufferedFeedback := mkBufferedFeedback {
  fb_stateId : StateId;
  fb_status : SentenceStatus;
  fb_worker : string
}.

(** A command handed out by the parser: [{text: string, range: Range}]. *)
Record Command := mkCommand { text : string; range : Range }.

(** [TextDocumentContentChangeEvent]: the replaced range and the new text. *)
Record TextChange := mkTextChange { change_range : Range; change_text : string }.

(** Modelled from the spec: coqtop.ts is missing.  A failure is
    "{state_id?, message, range: {start, stop}} where range is relative to
    the submitted text". *)
Record FailureResult := mkFailureResult {
  fail_stateId : option StateId;
  fail_message : string;
  fail_start : nat;
  fail_stop : nat
}.

(** What a rejected backend promise carries: a failure record or a string. *)
Inductive Rejection :=
  | RejectFailure (f : FailureResult)
  | RejectString (s : string).

(** "{new_state_id, optional unfocused_state_id}" *)
Record AddValue := mkAddValue {
  add_stateId : StateId;
  add_unfocusedStateId : option StateId
}.

(** "coqEditAt(state_id) -> {new_focus?: {qed_state_id}}" *)
Record EditAtValue := mkEditAtValue { newFocus_qedStateId : option StateId }.

(** Modelled from the spec: the backend transport consumed by the state
    machine (section 6), as an interface over an abstract backend state.
    Every request returns its answer (a value or a rejection) and the next
    backend state. *)
Class CoqTop (B : Type) := {
  top_isRunning : B → bool;
  top_resetCoq : B → (Rejection + StateId) * B;
  top_coqAddCommand : string → nat → StateId → bool → B → (Rejection + AddValue) * B;
  top_coqEditAt : StateId → B → (Rejection + EditAtValue) * B;
  top_coqQuery : string → option StateId → B → (Rejection + string) * B;
  top_coqQuit : B → (Rejection + unit) * B;
  top_coqInterrupt : B → (Rejection + unit) * B;
  top_coqResizeWindow : nat → B → B;
  top_coqLtacProfilingResults : option StateId → B → (Rejection + unit) * B;
  top_dispose : B → B
}.

(** ** Sentences *)

Abbreviation ref := nat.

(** Modelled from the spec: STMSentence.ts is missing.  "Attributes: a
    backend-assigned state_id, the exact command text, the half-open document
    range, a status, [...] and links to a unique parent and an ordered list
    of children."  The error record and the start time play no role in the
    state machine's control flow and are left out. *)
Record Sentence := mkSentence {
  stateId : StateId;
  commandText : string;
  textRange : Range;
  status : SentenceStatus;
  parent : option ref;
  children : list ref
}.

#[global] Instance Sentence_inhabited : Inhabited Sentence :=
  populate (mkSentence 0 "" (mkRange (mkPosition 0 0) (mkPosition 0 0))
                       ProcessingInput None []).

Module Sentence.

Definition set_status (x : SentenceStatus) (s : Sentence) : Sentence :=
  mkSentence (stateId s) (commandText s) (textRange s) x (parent s) (children s).
Definition set_textRange (x : Range) (s : Sentence) : Sentence :=
  mkSentence (stateId s) (commandText s) x (status s) (parent s) (children s).
Definition set_parent (x : option ref) (s : Sentence) : Sentence :=
  mkSentence (stateId s) (commandText s) (textRange s) (status s) x (children s).
Definition set_children (x : list ref) (s : Sentence) : Sentence :=
  mkSentence (stateId s) (commandText s) (textRange s) (status s) (parent s) x.

(** The arena of sentence objects; a reference is an index into it.  A
    reference that has been handed out is never freed. *)
Abbreviation Arena := (list Sentence).

Definition get (h : Arena) (r : ref) : Sentence := h !!! r.
Definition getRange (h : Arena) (r : ref) : Range := textRange (get h r).
Definition getStateId (h : Arena) (r : ref) : StateId := stateId (get h r).
Definition getStatus (h : Arena) (r : ref) : SentenceStatus := status (get h r).
Definition getParent (h : Arena) (r : ref) : option ref := parent (get h r).
Definition getChildren (h : Arena) (r : ref) : list ref := children (get h r).

(** Modelled from the spec: "newRoot(state_id)": "created on backend
    initialization with no text and zero range"; the root has no parent. *)
Definition newRoot (rootStateId : StateId) (h : Arena) : ref * Arena :=
  (length h,
   h ++ [mkSentence rootStateId ""
           (mkRange (mkPosition 0 0) (mkPosition 0 0)) ProcessingInput None []]).

(** Modelled from the spec: "add(parent, text, state_id, range, start_time)
    -> Sentence appending a child"; "ProcessingInput on creation". *)
Definition add (parent : ref) (text : string) (id : StateId) (range : Range)
    (h : Arena) : ref * Arena :=
  let new := length h in
  (new,
   alter (λ p, set_children (children p ++ [new]) p) parent h
     ++ [mkSentence id text range ProcessingInput (Some parent) []]).

(** Modelled from the spec: "transitions to any status the backend reports
    via feedback". *)
Definition updateStatus (r : ref) (s : SentenceStatus) (h : Arena) : Arena :=
  alter (set_status s) r h.

(** Modelled from the spec: "descendants() pre-order iteration".  The
    recursion is bounded by a depth; [descendants] below uses the size of
    the arena, which is enough whenever children have larger references than
    their parents (see [ordered]). *)
Fixpoint descendantsDepth (depth : nat) (h : Arena) (r : ref) : list ref :=
  match depth with
  | O => []
  | S d => flat_map (λ c, c :: descendantsDepth d h c) (getChildren h r)
  end.

Definition descendants (h : Arena) (r : ref) : list ref :=
  descendantsDepth (length h) h r.

(** Modelled from the spec: "descendantsUntil(end) iteration stopping at but
    not including end". *)
Fixpoint takeUntil (e : ref) (l : list ref) : list ref :=
  match l with
  | [] => []
  | x :: l' => if decide (x = e) then [] else x :: takeUntil e l'
  end.

Definition descendantsUntil (h : Arena) (r e : ref) : list ref :=
  takeUntil e (descendants h r).

(** Modelled from the spec: "removeDescendentsUntil(end) extracting and
    yielding removed nodes, splicing the tree": the sentences before [end]
    are yielded, and [end] is then linked directly under the start. *)
Definition splice (r e : ref) (h : Arena) : Arena :=
  alter (set_parent (Some r)) e (alter (set_children [e]) r h).

(** Modelled from the spec: "truncate() removing all descendants". *)
Definition truncate (r : ref) (h : Arena) : Arena :=
  alter (set_children []) r h.

(** Modelled from the spec: [isBefore(pos)]; interpret-to-point moves "back
    to the nearest sentence whose range ends at or before pos". *)
Definition isBefore (h : Arena) (r : ref) (pos : Position) : bool :=
  positionIsBeforeOrEqual (end_ (getRange h r)) pos.

(** Modelled from the spec: [contains(pos)] on the half-open range. *)
Definition contains (h : Arena) (r : ref) (pos : Position) : bool :=
  positionIsBeforeOrEqual (start (getRange h r)) pos
  && positionIsBefore pos (end_ (getRange h r)).

(** Modelled from the spec (4.2): an edit that "intersects the interior of
    the sentence text (not merely touches its boundary)" invalidates the
    sentence; "if edits lie entirely before the sentence, the sentence's
    range is shifted by the cumulative delta; not invalidated". *)
Definition intersectsInterior (rg : Range) (c : TextChange) : bool :=
  positionIsBefore (start (change_range c)) (end_ rg)
  && positionIsAfter (end_ (change_range c)) (start rg).

Definition shiftBy (c : TextChange) (rg : Range) : Range :=
  if positionIsBeforeOrEqual (end_ (change_range c)) (start rg)
  then rangeTranslate (toRangeDelta (change_range c) (change_text c)) rg
  else rg.

Definition applyTextChanges (r : ref) (changes : list TextChange) (h : Arena)
  : bool * Arena :=
  let rg := getRange h r in
  if existsb (intersectsInterior rg) changes then (true, h)
  else (false, alter (set_textRange (foldl (λ acc c, shiftBy c acc) rg changes)) r h).

End Sentence.

(** ** The state machine: state, observable events, exceptions *)

(** What the outside world sees: editor callbacks, console output, and the
    requests sent to the backend, in the order they happen. *)
Inductive Event :=
  | SentenceStatusUpdate (rg : Range) (s : SentenceStatus)
  | ClearSentence (rg : Range)
  | Message (level : MessageLevel) (msg : string)
  | CoqDied (error : option string)
  | ConsoleWarn (msg : string)
  | ConsoleLog (msg : string)
  | CoqAddCommand (text : string) (version : nat) (parentId : StateId) (verbose : bool)
  | CoqEditAt (id : StateId)
  | CoqQuery (query : string) (state : option StateId)
  | CoqQuit
  | CoqInterrupt
  | ResetCoq
  | CoqResizeWindow (columns : nat)
  | CoqLtacProfilingResults (state : option StateId)
  | CoqTopDispose.

#[global] Instance Event_eq_dec : EqDecision Event.
Proof. solve_decision. Defined.

(** The values that are thrown: an instance of the class [InconsistentState],
    a string, a backend failure record, the [FailValue] of the protocol, and
    the [TypeError] raised by a property access on [null] or [undefined]. *)
Inductive Exn :=
  | InconsistentState (message : string)
  | ThrownString (s : string)
  | ThrownFailure (f : FailureResult)
  | FailValue (message : string) (range : Range)
  | TypeError.

Definition exnOfRejection (r : Rejection) : Exn :=
  match r with
  | RejectFailure f => ThrownFailure f
  | RejectString s => ThrownString s
  end.

(** [error.toString()]: a string is itself; a plain object prints as
    [[object Object]]; the text of a [TypeError] depends on the engine and is
    abbreviated. *)
Definition toString (e : Exn) : string :=
  match e with
  | ThrownString s => s
  | TypeError => "TypeError"
  | _ => "[object Object]"
  end.

(** [error.stateId] on whatever was caught: only a failure record has one,
    and [if(error.stateId)] is taken only when it is a non-zero number. *)
Definition truthyStateId (o : option StateId) : option StateId :=
  match o with
  | Some (S n) => Some (S n)
  | _ => None
  end.

Definition errorStateId (e : Exn) : option StateId :=
  match e with
  | ThrownFailure f => truthyStateId (fail_stateId f)
  | _ => None
  end.

(** The fields of [CoqStateMachine].  [None] stands for [null] and
    [undefined] alike; [callbacks] and [console] only record whether the
    field still holds its object; [heap] is the arena of sentence objects and
    [trace] the events so far (oldest first).  The field [documentVersion]
    is never read or written and the settings are only passed on to the
    backend; both are left out. *)
Record CoqStateMachine {B : Type} := mkSTM {
  version : nat;
  root : option ref;
  sentences : option (gmap StateId ref);
  focusedSentence : option ref;
  lastSentence : option ref;
  coqtop : B;
  bufferedFeedback : option (list BufferedFeedback);
  running : bool;
  callbacks : bool;
  console : bool;
  heap : Sentence.Arena;
  trace : list Event
}.
Arguments CoqStateMachine : clear implicits.
Arguments mkSTM {B}.

Inductive Res (A : Type) :=
  | Ok (a : A)
  | Throw (e : Exn).
Arguments Ok {A}.
Arguments Throw {A}.

Section Machine.

Context {B : Type} `{!CoqTop B}.

Abbreviation STM := (CoqStateMachine B).

Definition set_version (x : nat) (st : STM) : STM :=
  mkSTM x (root st) (sentences st) (focusedSentence st) (lastSentence st)
    (coqtop st) (bufferedFeedback st) (running st) (callbacks st) (console st)
    (heap st) (trace st).
Definition set_root (x : option ref) (st : STM) : STM :=
  mkSTM (version st) x (sentences st) (focusedSentence st) (lastSentence st)
    (coqtop st) (bufferedFeedback st) (running st) (callbacks st) (console st)
    (heap st) (trace st).
Definition set_sentences (x : option (gmap StateId ref)) (st : STM) : STM :=
  mkSTM (version st) (root st) x (focusedSentence st) (lastSentence st)
    (coqtop st) (bufferedFeedback st) (running st) (callbacks st) (console st)
    (heap st) (trace st).
Definition set_focusedSentence (x : option ref) (st : STM) : STM :=
  mkSTM (version st) (root st) (sentences st) x (lastSentence st)
    (coqtop st) (bufferedFeedback st) (running st) (callbacks st) (console st)
    (heap st) (trace st).
Definition set_lastSentence (x : option ref) (st : STM) : STM :=
  mkSTM (version st) (root st) (sentences st) (focusedSentence st) x
    (coqtop st) (bufferedFeedback st) (running st) (callbacks st) (console st)
    (heap st) (trace st).
Definition set_coqtop (x : B) (st : STM) : STM :=
  mkSTM (version st) (root st) (sentences st) (focusedSentence st) (lastSentence st)
    x (bufferedFeedback st) (running st) (callbacks st) (console st)
    (heap st) (trace st).
Definition set_bufferedFeedback (x : option (list BufferedFeedback)) (st : STM) : STM :=
  mkSTM (version st) (root st) (sentences st) (focusedSentence st) (lastSentence st)
    (coqtop st) x (running st) (callbacks st) (console st)
    (heap st) (trace st).
Definition set_running (x : bool) (st : STM) : STM :=
  mkSTM (version st) (root st) (sentences st) (focusedSentence st) (lastSentence st)
    (coqtop st) (bufferedFeedback st) x (callbacks st) (console st)
    (heap st) (trace st).
Definition set_callbacks (x : bool) (st : STM) : STM :=
  mkSTM (version st) (root st) (sentences st) (focusedSentence st) (lastSentence st)
    (coqtop st) (bufferedFeedback st) (running st) x (console st)
    (heap st) (trace st).
Definition set_console (x : bool) (st : STM) : STM :=
  mkSTM (version st) (root st) (sentences st) (focusedSentence st) (lastSentence st)
    (coqtop st) (bufferedFeedback st) (running st) (callbacks st) x
    (heap st) (trace st).
Definition set_heap (x : Sentence.Arena) (st : STM) : STM :=
  mkSTM (version st) (root st) (sentences st) (focusedSentence st) (lastSentence st)
    (coqtop st) (bufferedFeedback st) (running st) (callbacks st) (console st)
    x (trace st).
Definition set_trace (x : list Event) (st : STM) : STM :=
  mkSTM (version st) (root st) (sentences st) (focusedSentence st) (lastSentence st)
    (coqtop st) (bufferedFeedback st) (running st) (callbacks st) (console st)
    (heap st) x.

(** The state of a freshly constructed machine (the field initialisers and
    the constructor). *)
Definition newMachine (top : B) : STM :=
  mkSTM 0 None None None None top (Some []) true true true [] [].

(** *** A state and exception monad

    A method of the class is a function from the state to an outcome (a
    value or a thrown exception) and the state it leaves behind; the
    mutations done before a [throw] persist, as in the source. *)
Definition M (A : Type) : Type := STM → Res A * STM.

Definition ret {A} (a : A) : M A := λ st, (Ok a, st).

Definition bind {A C} (m : M A) (k : A → M C) : M C :=
  λ st, match m st with
        | (Ok a, st') => k a st'
        | (Throw e, st') => (Throw e, st')
        end.

Definition throw {A} (e : Exn) : M A := λ st, (Throw e, st).

Definition tryCatch {A} (m : M A) (handler : Exn → M A) : M A :=
  λ st, match m st with
        | (Ok a, st') => (Ok a, st')
        | (Throw e, st') => handler e st'
        end.

Definition gets {A} (f : STM → A) : M A := λ st, (Ok (f st), st).
Definition modify (f : STM → STM) : M unit := λ st, (Ok (), f st).

Definition emit (e : Event) : M unit :=
  modify (λ st, set_trace (trace st ++ [e]) st).

End Machine.

Declare Scope stm_scope.
Delimit Scope stm_scope with stm.
Notation "x <- c1 ;; c2" := (bind c1 (λ x, c2))
  (at level 100, c1 at next level, c2 at level 200, right associativity) : stm_scope.
Notation "c1 ;; c2" := (bind c1 (λ _, c2))
  (at level 100, c2 at level 200, right associativity) : stm_scope.
Open Scope stm_scope.

Section Methods.

Context {B : Type} `{!CoqTop B}.

Abbreviation STM := (CoqStateMachine B).
Abbreviation M := (@M B).

Fixpoint forEach {A} (l : list A) (body : A → M unit) : M unit :=
  match l with
  | [] => ret ()
  | x :: l' => body x ;; forEach l' body
  end.

(** [this.console.warn(..)], [this.console.log(..)], a call of one of the
    [this.callbacks]: a [TypeError] once the field is [undefined]. *)
Definition consoleWarn (msg : string) : M unit :=
  c <- gets console ;;
  if c : bool then emit (ConsoleWarn msg) else throw TypeError.

Definition consoleLog (msg : string) : M unit :=
  c <- gets console ;;
  if c : bool then emit (ConsoleLog msg) else throw TypeError.

Definition callback (e : Event) : M unit :=
  c <- gets callbacks ;;
  if c : bool then emit e else throw TypeError.

(** [await this.coqtop.request(..)]: the request is recorded, the backend
    moves on, and a rejection is thrown at the point of the [await]. *)
Definition await {X} (e : Event) (request : B → (Rejection + X) * B) : M X :=
  emit e ;;
  top <- gets coqtop ;;
  let '(answer, top') := request top in
  modify (set_coqtop top') ;;
  match answer with
  | inr x => ret x
  | inl r => throw (exnOfRejection r)
  end.

(** Dereferencing a sentence variable that may hold [null]/[undefined]. *)
Definition deref (s : option ref) : M ref :=
  match s with
  | Some r => ret r
  | None => throw TypeError
  end.

(** [this.sentences], when a method is called on it. *)
Definition theSentences : M (gmap StateId ref) :=
  s <- gets sentences ;;
  match s with
  | Some m => ret m
  | None => throw TypeError
  end.

Definition dispose : M unit :=
  r <- gets running ;;
  (if r : bool
   then consoleWarn "The STM manager is being disposed before being shut down"
   else ret ()) ;;
  modify (set_running false) ;;
  modify (set_sentences None) ;;
  modify (set_bufferedFeedback None) ;;
  modify (set_console false) ;;
  modify (set_focusedSentence None) ;;
  modify (set_callbacks false) ;;
  emit CoqTopDispose ;;
  modify (λ st, set_coqtop (top_dispose (coqtop st)) st).

Definition shutdown : M unit :=
  r <- gets running ;;
  if negb r then ret ()
  else await CoqQuit top_coqQuit ;; dispose.

Definition interrupt : M unit :=
  await CoqInterrupt top_coqInterrupt.

Definition isRunning : M bool := gets running.

Definition getFocusedPosition : M Position :=
  f <- gets focusedSentence ;;
  match f with
  | None => ret (mkPosition 0 0)
  | Some r => h <- gets heap ;; ret (end_ (Sentence.getRange h r))
  end.

Definition handleInconsistentState (error : Exn) : M unit :=
  callback (CoqDied (Some ("Inconsistent state: " +:+ toString error))) ;;
  dispose.

Definition throwInconsistentState {A} (error : string) : M A :=
  callback (CoqDied (Some ("Inconsistent state: " +:+ error))) ;;
  dispose ;;
  throw (InconsistentState error).

Definition deleteSentence (sent : ref) : M unit :=
  h <- gets heap ;;
  callback (ClearSentence (Sentence.getRange h sent)) ;;
  m <- theSentences ;;
  modify (set_sentences (Some (delete (Sentence.getStateId h sent) m))).

(** "Removes sentences from range (start,end), exclusive" *)
Definition rewindRange (start : ref) (end_ : option ref) : M unit :=
  e <- deref end_ ;;
  h <- gets heap ;;
  forEach (Sentence.descendantsUntil h start e) deleteSentence ;;
  modify (λ st, set_heap (Sentence.splice start e (heap st)) st).

(** "Rewind the entire document to this sentence" *)
Definition rewindTo (newLast : option ref) : M unit :=
  r <- deref newLast ;;
  h <- gets heap ;;
  forEach (Sentence.descendants h r) deleteSentence ;;
  modify (λ st, set_heap (Sentence.truncate r (heap st)) st) ;;
  modify (set_lastSentence (Some r)) ;;
  modify (set_focusedSentence (Some r)).

Definition gotoErrorFallbackState (id : StateId) : M unit :=
  tryCatch
    (m <- theSentences ;;
     let beforeErrorSentence := m !! id in
     await (CoqEditAt id) (top_coqEditAt id) ;;
     rewindTo beforeErrorSentence)
    handleInconsistentState.

(** "Focuses the sentence; a new sentence may be appended to it" *)
Definition focusSentence (sentence : option ref) : M unit :=
  f <- gets focusedSentence ;;
  if decide (sentence = f) then ret ()
  else
    tryCatch
      (s <- deref sentence ;;
       h <- gets heap ;;
       result <- await (CoqEditAt (Sentence.getStateId h s))
                       (top_coqEditAt (Sentence.getStateId h s)) ;;
       match newFocus_qedStateId result with
       | Some endStateId =>
           m <- theSentences ;;
           rewindRange s (m !! endStateId)
       | None => rewindTo (Some s)
       end ;;
       modify (set_focusedSentence (Some s)))
      (λ error,
         match errorStateId error with
         | Some id => gotoErrorFallbackState id
         | None => ret ()
         end).

Definition cancelSentence (sentence : option ref) : M unit :=
  s <- deref sentence ;;
  h <- gets heap ;;
  focusSentence (Sentence.getParent h s).

(** "Apply buffered feedback to existing sentences, then clear the buffer" *)
Definition applyBufferedFeedback : M unit :=
  b <- gets bufferedFeedback ;;
  match b with
  | None => throw TypeError
  | Some buffer =>
      forEach buffer (λ feedback,
        m <- theSentences ;;
        match m !! fb_stateId feedback with
        | None => consoleWarn "Received buffered feedback for unknown stateId"
        | Some sent =>
            modify (λ st, set_heap (Sentence.updateStatus sent (fb_status feedback) (heap st)) st) ;;
            h <- gets heap ;;
            callback (SentenceStatusUpdate (Sentence.getRange h sent) (Sentence.getStatus h sent))
        end) ;;
      modify (set_bufferedFeedback (Some []))
  end.

Definition initialize (rootStateId : StateId) : M unit :=
  r <- gets root ;;
  if bool_decide (is_Some r) then throw (ThrownString "STM is already initialized.")
  else
    run <- gets running ;;
    if negb run
    then throw (ThrownString "Cannot reinitialize the STM once it has died; create a new one.")
    else
      h <- gets heap ;;
      let '(rootRef, h') := Sentence.newRoot rootStateId h in
      modify (set_heap h') ;;
      modify (set_root (Some rootRef)) ;;
      modify (set_sentences (Some {[ Sentence.getStateId h' rootRef := rootRef ]})) ;;
      modify (set_focusedSentence (Some rootRef)) ;;
      modify (set_lastSentence (Some rootRef)).

Definition isCoqReady : M bool :=
  r <- gets running ;;
  top <- gets coqtop ;;
  ret (r && top_isRunning top).

Definition validateState (init : bool) : M bool :=
  r <- gets running ;;
  top <- gets coqtop ;;
  if negb r && init
  then throw (ThrownString "Cannot perform operation: coq STM manager has been shut down.")
  else if negb r then ret false
  else if top_isRunning top then ret true
  else if init then
    value <- await ResetCoq top_resetCoq ;;
    initialize value ;;
    ret true
  else ret false.

(** The result of [addCommand]: [{sentence: Sentence, unfocused: boolean}]. *)
Record AddResult := mkAddResult { sentence : ref; unfocused : bool }.

(** "Adds a command; assumes that it is adjacent to the current focus".
    The handler is the [catch] clause: an [InconsistentState] is thrown on,
    a string is wrapped into one, and anything else is read as a backend
    failure record (on any other object [error.range.start] is itself a
    [TypeError]). *)
Definition addCommand (command : Command) (verbose : bool) : M AddResult :=
  tryCatch
    (f <- gets focusedSentence ;;
     parent <- deref f ;;
     h <- gets heap ;;
     (if negb (positionIsEqual (end_ (Sentence.getRange h parent)) (start (range command)))
      then throwInconsistentState "Can only add a comand to the current focus"
      else ret ()) ;;
     v <- gets version ;;
     value <- await (CoqAddCommand (text command) v (Sentence.getStateId h parent) verbose)
                    (top_coqAddCommand (text command) v (Sentence.getStateId h parent) verbose) ;;
     h <- gets heap ;;
     let '(newSentence, h') :=
       Sentence.add parent (text command) (add_stateId value) (range command) h in
     modify (set_heap h') ;;
     m <- theSentences ;;
     modify (set_sentences (Some (<[Sentence.getStateId h' newSentence := newSentence]> m))) ;;
     applyBufferedFeedback ;;
     modify (λ st, set_heap (Sentence.updateStatus newSentence ProcessingInput (heap st)) st) ;;
     l <- gets lastSentence ;;
     last <- deref l ;;
     h <- gets heap ;;
     (if positionIsAfterOrEqual (start (Sentence.getRange h newSentence))
                                (end_ (Sentence.getRange h last))
      then modify (set_lastSentence (Some newSentence))
      else ret ()) ;;
     match truthyStateId (add_unfocusedStateId value) with
     | Some u => m <- theSentences ;; modify (set_focusedSentence (m !! u))
     | None => modify (set_focusedSentence (Some newSentence))
     end ;;
     ret (mkAddResult newSentence (bool_decide (is_Some (add_unfocusedStateId value)))))
    (λ err,
       match err with
       | InconsistentState _ => throw err
       | ThrownString s => throw (InconsistentState s)
       | ThrownFailure error =>
           match truthyStateId (fail_stateId error) with
           | Some id => gotoErrorFallbackState id
           | None => ret ()
           end ;;
           throw (FailValue (fail_message error)
                    (mkRange
                       (positionAtRelative (start (range command)) (text command) (fail_start error))
                       (positionAtRelative (start (range command)) (text command) (fail_stop error))))
       | _ => throw TypeError
       end).

(** The parser: [(begin, end?) => Iterable<{text, range}>], a finite
    sequence of commands. *)
Definition CommandIterator := Position → option Position → list Command.

(** [commandIterator.next()] *)
Definition next (it : list Command) : option Command * list Command :=
  match it with
  | [] => (None, [])
  | c :: it' => (Some c, it')
  end.

(** The loop of [iterateAdvanceFocus].  Its state is the command fetched
    last ([nextCommand]), the iterator it came from, and [contiguousFocus].
    The loop can restart the parser without bound, hence the fuel; when the
    fuel runs out the loop stops as if the commands were exhausted. *)
Fixpoint advanceLoop (fuel : nat)
    (iterateCondition : Command → bool → bool) (commandSequence : CommandIterator)
    (verbose : bool) (endPos : option Position)
    (contiguousFocus : bool) (nextCommand : option Command)
    (commandIterator : list Command) : M unit :=
  match fuel, nextCommand with
  | S fuel', Some command =>
      if negb (iterateCondition command contiguousFocus) then ret ()
      else
        consoleLog "1" ;;
        let '(nextCommand', commandIterator') := next commandIterator in
        consoleLog "2" ;;
        result <- addCommand command verbose ;;
        (if unfocused result
         then
           p <- getFocusedPosition ;;
           advanceLoop fuel' iterateCondition commandSequence verbose endPos
             (negb (unfocused result)) nextCommand' (commandSequence p endPos)
         else
           advanceLoop fuel' iterateCondition commandSequence verbose endPos
             (negb (unfocused result)) nextCommand' commandIterator')
  | _, _ => ret ()
  end.

Definition iterateAdvanceFocus (fuel : nat)
    (iterateCondition : Command → bool → bool) (commandSequence : CommandIterator)
    (verbose : bool) (endPos : option Position) : M unit :=
  p <- getFocusedPosition ;;
  let '(nextCommand, commandIterator) := next (commandSequence p endPos) in
  advanceLoop fuel iterateCondition commandSequence verbose endPos
    true nextCommand commandIterator.

Definition stepForward (fuel : nat) (commandSequence : CommandIterator)
    (verbose : bool) : M unit :=
  validateState true ;;
  currentFocus <- getFocusedPosition ;;
  iterateAdvanceFocus fuel
    (λ command _, positionIsEqual (start (range command)) currentFocus)
    commandSequence verbose None.

Definition stepBackward : M unit :=
  validateState true ;;
  f <- gets focusedSentence ;;
  cancelSentence f.

Definition getParentSentence (position : Position) : M (option ref) :=
  r <- gets root ;;
  rt <- deref r ;;
  h <- gets heap ;;
  match List.find (λ s, negb (Sentence.isBefore h s position)) (Sentence.descendants h rt) with
  | Some s => ret (Sentence.getParent h s)
  | None => ret (Some rt)
  end.

Definition getSentence (position : Position) : M ref :=
  r <- gets root ;;
  rt <- deref r ;;
  h <- gets heap ;;
  match List.find (λ s, Sentence.contains h s position) (Sentence.descendants h rt) with
  | Some s => ret s
  | None => ret rt
  end.

Definition interpretToPoint (fuel : nat) (position : Position)
    (commandSequence : CommandIterator) : M unit :=
  validateState true ;;
  iterateAdvanceFocus fuel
    (λ command _, positionIsAfterOrEqual position (end_ (range command)))
    commandSequence true (Some position) ;;
  focus <- getFocusedPosition ;;
  if positionIsBefore position focus
  then p <- getParentSentence position ;; focusSentence p
  else ret ().

Definition doQuery (query : string) (position : option Position) : M string :=
  validateState true ;;
  state <- match position with
           | Some pos =>
               p <- getParentSentence pos ;;
               s <- deref p ;;
               h <- gets heap ;;
               ret (Some (Sentence.getStateId h s))
           | None => ret None
           end ;;
  await (CoqQuery query state) (top_coqQuery query state).

Definition setWrappingWidth (columns : nat) : M unit :=
  ready <- isCoqReady ;;
  if ready : bool
  then emit (CoqResizeWindow columns) ;;
       modify (λ st, set_coqtop (top_coqResizeWindow columns (coqtop st)) st)
  else ret ().

Definition requestLtacProfResults (position : option Position) : M unit :=
  ready <- isCoqReady ;;
  if negb ready then ret ()
  else
    match position with
    | Some pos =>
        sent <- getSentence pos ;;
        h <- gets heap ;;
        await (CoqLtacProfilingResults (Some (Sentence.getStateId h sent)))
              (top_coqLtacProfilingResults (Some (Sentence.getStateId h sent)))
    | None =>
        await (CoqLtacProfilingResults None) (top_coqLtacProfilingResults None)
    end.

(** *** Edit reconciliation *)

(** [changes.sort((c1, c2) => positionIsAfter(c1.start, c2.start) ? -1 : 1)].
    The language leaves the sorting algorithm to the engine; it is modelled
    as an insertion sort driven by the comparator of the source: [c] goes in
    front of the first element it is after. *)
Fixpoint insertChange (c : TextChange) (l : list TextChange) : list TextChange :=
  match l with
  | [] => [c]
  | x :: l' =>
      if positionIsAfter (start (change_range c)) (start (change_range x))
      then c :: x :: l'
      else x :: insertChange c l'
  end.

Definition sortChanges (changes : list TextChange) : list TextChange :=
  foldr insertChange [] changes.

(** The inner [while] loop: [shift()] as long as the first change starts at
    or after the end of the sentence. *)
Fixpoint shiftWhile (sentEnd : Position) (sortedChanges : list TextChange)
  : list TextChange :=
  match sortedChanges with
  | [] => []
  | c :: rest =>
      if positionIsAfterOrEqual (start (change_range c)) sentEnd
      then shiftWhile sentEnd rest
      else c :: rest
  end.

(** The loop over [this.lastSentence.ancestors()].  Modelled from the spec:
    "ancestors() leaf-to-root walk starting from the last sentence"; the
    generator reads the parent link each time it is resumed.  The walk ends
    at a sentence without parent; the bound only matters for an arena whose
    parent links form a cycle. *)
Fixpoint ancestorsLoop (fuel : nat) (sent : option ref)
    (sortedChanges : list TextChange) : M unit :=
  match fuel, sent with
  | S fuel', Some s =>
      h <- gets heap ;;
      match shiftWhile (end_ (Sentence.getRange h s)) sortedChanges with
      | [] => ret ()
      | c :: rest =>
          let '(invalidated, h') := Sentence.applyTextChanges s (c :: rest) h in
          modify (set_heap h') ;;
          (if invalidated : bool then cancelSentence (Some s) else ret ()) ;;
          h'' <- gets heap ;;
          ancestorsLoop fuel' (Sentence.getParent h'' s) (c :: rest)
      end
  | _, _ => ret ()
  end.

(** "Adjust sentence ranges and cancel any sentences that are invalidated by
    the edit".  The [deltas] computed in the source are never used. *)
Definition applyChanges (changes : list TextChange) (newVersion : nat) : M unit :=
  r <- gets running ;;
  if negb r || (length changes =? 0) then ret ()
  else
    let sortedChanges := sortChanges changes in
    tryCatch
      (l <- gets lastSentence ;;
       last <- deref l ;;
       h <- gets heap ;;
       ancestorsLoop (length h) (Some last) sortedChanges)
      handleInconsistentState ;;
    modify (set_version newVersion).

(** *** Feedback from the backend *)

Definition onCoqStateStatusUpdate (id : StateId) (route : nat)
    (status : SentenceStatus) (worker : string) : M unit :=
  m <- theSentences ;;
  match m !! id with
  | Some sent =>
      modify (λ st, set_heap (Sentence.updateStatus sent status (heap st)) st) ;;
      h <- gets heap ;;
      callback (SentenceStatusUpdate (Sentence.getRange h sent) (Sentence.getStatus h sent))
  | None =>
      b <- gets bufferedFeedback ;;
      match b with
      | Some buffer =>
          modify (set_bufferedFeedback (Some (buffer ++ [mkBufferedFeedback id status worker])))
      | None => throw TypeError
      end
  end.

Definition onCoqMessage (level : MessageLevel) (message : string) : M unit :=
  callback (Message level message).

(** [!error]: no error, or the empty string. *)
Definition falsyString (error : option string) : bool :=
  match error with
  | None => true
  | Some s => bool_decide (s = "")
  end.

Definition onCoqClosed (error : option string) : M unit :=
  r <- gets running ;;
  if falsyString error || negb r then ret ()
  else
    consoleLog ("onCoqClosed(" +:+ default "" error +:+ ")") ;;
    dispose ;;
    callback (CoqDied error).

End Methods.

(** ** A scripted backend

    A backend for running the machine on examples: it answers every request
    from a prepared list of answers of the right kind, and rejects with a
    string when the list is used up. *)
Record Scripted := mkScripted {
  s_running : bool;
  s_reset : StateId;
  s_adds : list (Rejection + AddValue);
  s_edits : list (Rejection + EditAtValue)
}.

#[global] Instance Scripted_top : CoqTop Scripted := {|
  top_isRunning b := s_running b;
  top_resetCoq b :=
    (inr (s_reset b), mkScripted true (s_reset b) (s_adds b) (s_edits b));
  top_coqAddCommand _ _ _ _ b :=
    match s_adds b with
    | [] => (inl (RejectString "no answer"), b)
    | a :: rest => (a, mkScripted (s_running b) (s_reset b) rest (s_edits b))
    end;
  top_coqEditAt _ b :=
    match s_edits b with
    | [] => (inl (RejectString "no answer"), b)
    | a :: rest => (a, mkScripted (s_running b) (s_reset b) (s_adds b) rest)
    end;
  top_coqQuery _ _ b := (inr "", b);
  top_coqQuit b := (inr (), mkScripted false (s_reset b) (s_adds b) (s_edits b));
  top_coqInterrupt b := (inr (), b);
  top_coqResizeWindow _ b := b;
  top_coqLtacProfilingResults _ b := (inr (), b);
  top_dispose b := mkScripted false (s_reset b) (s_adds b) (s_edits b)
|}.

(** ** Operations and events as data

    The public methods, [initialize], and the feedback handlers, so that
    statements can range over "every operation". *)
Inductive Operation :=
  | OpDispose
  | OpShutdown
  | OpInterrupt
  | OpStepForward (fuel : nat) (commandSequence : CommandIterator) (verbose : bool)
  | OpStepBackward
  | OpApplyChanges (changes : list TextChange) (newVersion : nat)
  | OpInterpretToPoint (fuel : nat) (position : Position) (commandSequence : CommandIterator)
  | OpDoQuery (query : string) (position : option Position)
  | OpSetWrappingWidth (columns : nat)
  | OpRequestLtacProfResults (position : option Position)
  | OpInitialize (rootStateId : StateId)
  | EvStateStatusUpdate (id : StateId) (route : nat) (status : SentenceStatus) (worker : string)
  | EvMessage (level : MessageLevel) (message : string)
  | EvClosed (error : option string).

Section Specification.

Context {B : Type} `{!CoqTop B}.

Abbreviation STM := (CoqStateMachine B).
Abbreviation M := (@M B).

Definition perform (op : Operation) : M unit :=
  match op with
  | OpDispose => dispose
  | OpShutdown => shutdown
  | OpInterrupt => interrupt
  | OpStepForward fuel cs verbose => stepForward fuel cs verbose
  | OpStepBackward => stepBackward
  | OpApplyChanges changes v => applyChanges changes v
  | OpInterpretToPoint fuel position cs => interpretToPoint fuel position cs
  | OpDoQuery query position => doQuery query position ;; ret ()
  | OpSetWrappingWidth columns => setWrappingWidth columns
  | OpRequestLtacProfResults position => requestLtacProfResults position
  | OpInitialize id => initialize id
  | EvStateStatusUpdate id route status worker => onCoqStateStatusUpdate id route status worker
  | EvMessage level message => onCoqMessage level message
  | EvClosed error => onCoqClosed error
  end.

(** A machine that has not been disposed: the flag is set and the objects
    that [dispose] clears are still there. *)
Definition alive (st : STM) : Prop :=
  running st = true ∧ callbacks st = true ∧ console st = true.

(** The state after [dispose] on a live machine. *)
Definition disposed (st : STM) : STM :=
  mkSTM (version st) (root st) None None (lastSentence st)
    (top_dispose (coqtop st)) None false false false (heap st)
    (trace st ++ [ConsoleWarn "The STM manager is being disposed before being shut down";
                  CoqTopDispose]).

(** The state right after a request has been sent and answered. *)
Definition requested (e : Event) (top' : B) (st : STM) : STM :=
  set_coqtop top' (set_trace (trace st ++ [e]) st).

(** The messages of the two faults that the statements below mention. *)
Definition offFocus : string := "Can only add a comand to the current focus".

Definition shutDownMessage : string :=
  "Cannot perform operation: coq STM manager has been shut down.".

(** A computation respects a relation between the state before and after. *)
Definition respects (R : STM → STM → Prop) {A} (m : M A) : Prop :=
  ∀ st, R st (snd (m st)).

(** The console and the callbacks are there exactly as long as the machine
    is running. *)
Definition inSync (st : STM) : Prop :=
  callbacks st = running st ∧ console st = running st.

(** What every method keeps: once dead, always dead; the three fields that
    [dispose] clears together stay in step; and a root stays. *)
Definition steady (st st' : STM) : Prop :=
  (running st = false → running st' = false) ∧
  (inSync st → inSync st') ∧
  (is_Some (root st) → is_Some (root st')).

(** A machine before its lazy initialisation: no root, and none of the
    fields that are set up together with the root. *)
Definition pristine (st : STM) : Prop :=
  root st = None ∧ focusedSentence st = None ∧ lastSentence st = None ∧
  sentences st = None.

(** *** The sentence tree *)

(** Children have larger references than their parent and lie in the arena;
    this holds by construction, since a child is allocated after its
    parent, and it bounds the depth of the tree by the size of the arena. *)
Definition orderedb (h : Sentence.Arena) : bool :=
  forallb (λ r, forallb (λ c, (r <? c) && (c <? length h)) (Sentence.getChildren h r))
          (seq 0 (length h)).

Definition ordered (h : Sentence.Arena) : Prop := orderedb h = true.

(** The parent link of every child points back. *)
Definition parentsOkb (h : Sentence.Arena) : bool :=
  forallb (λ r, forallb (λ c, bool_decide (Sentence.getParent h c = Some r))
                        (Sentence.getChildren h r))
          (seq 0 (length h)).

Definition parentsOk (h : Sentence.Arena) : Prop := parentsOkb h = true.


(** The sentences of the tree: the root and its descendants. *)
Definition treeMembers (st : STM) : list ref :=
  match root st with
  | Some rt => rt :: Sentence.descendants (heap st) rt
  | None => []
  end.

Definition indexOf (h : Sentence.Arena) (l : list ref) : gmap StateId ref :=
  list_to_map ((λ r, (Sentence.getStateId h r, r)) <$> l).

(** "The state-id index and tree have identical membership": the index is
    exactly the tree's sentences under their state ids, which are distinct. *)
Definition indexMirrorsTree (st : STM) : Prop :=
  NoDup (Sentence.getStateId (heap st) <$> treeMembers st) ∧
  sentences st = Some (indexOf (heap st) (treeMembers st)).

(** The root is in the arena and has no parent. *)
Definition rooted (st : STM) : Prop :=
  ∃ rt, root st = Some rt ∧ rt < length (heap st) ∧ Sentence.getParent (heap st) rt = None.

(** The index after [deleteSentence] on each sentence of a list. *)
Definition deleteAll (h : Sentence.Arena) (l : list ref) (m : gmap StateId ref)
  : gmap StateId ref :=
  foldl (λ acc x, delete (Sentence.getStateId h x) acc) m l.




(** *** Edit reconciliation as the specification words it (4.5)

    "1. Drop from the edit list any edit whose start position is at or
    after this sentence's range end.  2. If the remaining list is empty,
    stop.  3. Apply the remaining edits to this sentence.  If invalidated,
    cancel it." *)
Definition startsBefore (sentEnd : Position) (c : TextChange) : bool :=
  negb (positionIsAfterOrEqual (start (change_range c)) sentEnd).

Fixpoint reconcile (fuel : nat) (sent : option ref) (edits : list TextChange) : M unit :=
  match fuel, sent with
  | S fuel', Some s =>
      h <- gets heap ;;
      let remaining := List.filter (startsBefore (end_ (Sentence.getRange h s))) edits in
      if bool_decide (remaining = []) then ret ()
      else
        let '(invalidated, h') := Sentence.applyTextChanges s remaining h in
        modify (set_heap h') ;;
        (if invalidated : bool then cancelSentence (Some s) else ret ()) ;;
        h'' <- gets heap ;;
        reconcile fuel' (Sentence.getParent h'' s) remaining
  | _, _ => ret ()
  end.

(** "later (greater-start) edits come first" *)
Definition laterFirst (c1 c2 : TextChange) : Prop :=
  positionIsAfter (start (change_range c2)) (start (change_range c1)) = false.

End Specification.

Module Examples.

Definition pos (l c : nat) : Position := mkPosition l c.
Definition rng (l1 c1 l2 c2 : nat) : Range := mkRange (pos l1 c1) (pos l2 c2).

(** The document "A.B.C.D." on one line, and its parser. *)
Definition cmdA : Command := mkCommand "A." (rng 0 0 0 2).
Definition cmdB : Command := mkCommand "B." (rng 0 2 0 4).
Definition cmdC : Command := mkCommand "C." (rng 0 4 0 6).
Definition cmdD : Command := mkCommand "D." (rng 0 6 0 8).

Definition parser : CommandIterator :=
  λ begin _, List.filter (λ c, positionIsAfterOrEqual (start (range c)) begin)
                         [cmdA; cmdB; cmdC; cmdD].

(** Run a computation and keep the state, or the outcome. *)
Definition exec {B A} (m : @M B A) (st : CoqStateMachine B) : CoqStateMachine B :=
  snd (m st).
Definition outcome {B A} (m : @M B A) (st : CoqStateMachine B) : Res A :=
  fst (m st).

(** A machine whose backend hands out state 1 for the root and then answers
    the given adds and edit-ats; it has gone through lazy initialisation. *)
Definition started (adds : list (Rejection + AddValue))
    (edits : list (Rejection + EditAtValue)) : CoqStateMachine Scripted :=
  exec (validateState true) (newMachine (mkScripted false 1 adds edits)).

Definition accept (id : StateId) : Rejection + AddValue := inr (mkAddValue id None).
Definition acceptUnfocused (id u : StateId) : Rejection + AddValue :=
  inr (mkAddValue id (Some u)).
Definition rewound : Rejection + EditAtValue := inr (mkEditAtValue None).
Definition refocused (qed : StateId) : Rejection + EditAtValue :=
  inr (mkEditAtValue (Some qed)).

(** Root (state 1) and "A." (state 2) accepted; focus and last are "A.". *)
Definition afterA (adds : list (Rejection + AddValue))
    (edits : list (Rejection + EditAtValue)) : CoqStateMachine Scripted :=
  exec (addCommand cmdA false) (started (accept 2 :: adds) edits).

(** Root, "A." (2), "B." (3), "C." (4) accepted in a row. *)
Definition afterABC (adds : list (Rejection + AddValue))
    (edits : list (Rejection + EditAtValue)) : CoqStateMachine Scripted :=
  exec (addCommand cmdC false)
    (exec (addCommand cmdB false)
       (afterA (accept 3 :: accept 4 :: adds) edits)).




(** Four steps forward, then interpret-to-point into "B.": the backend
    answers the edit-at for "A." with a new focus whose qed state is 4, so
    "B." is cut out, "A." has the focus, "C." hangs under "A." and "D."
    under "C." is still the last sentence. *)
Definition jumpedIntoProof : CoqStateMachine Scripted :=
  exec (interpretToPoint 10 (pos 0 3) parser)
    (exec (stepForward 10 parser false)
       (exec (stepForward 10 parser false)
          (exec (stepForward 10 parser false)
             (exec (stepForward 10 parser false)
                (started [accept 2; accept 3; accept 4; accept 5] [refocused 4]))))).

(** An edit replacing the "C" of "C." by "X". *)
Definition editInC : TextChange := mkTextChange (rng 0 4 0 5) "X".

End Examples.

(** ** Goals

    [getGoal] hands the goals of the backend to the editor in the shape of
    the protocol.  The shapes are read off the field accesses of
    [convertGoal], [convertUnfocusedGoals] and [convertGoals]; what these
    methods only pass through (the text of a goal, the children of a
    pretty-printed hypothesis) has the abstract type [Rich]. *)

(** *** Strings

    A string is read as a sequence of 8-bit characters. *)

(** [String.prototype.trim] strips white space and line terminators from
    both ends; among the 8-bit characters these are TAB, LF, VT, FF, CR, SP
    and NBSP. *)
Definition isWhiteSpace (c : Ascii.ascii) : bool :=
  let n := Ascii.nat_of_ascii c in
  ((9 <=? n) && (n <=? 13)) || (n =? 32) || (n =? 160).

Fixpoint trimStart (s : string) : string :=
  match s with
  | EmptyString => EmptyString
  | String c rest => if isWhiteSpace c then trimStart rest else s
  end.

Fixpoint trimEnd (s : string) : string :=
  match s with
  | EmptyString => EmptyString
  | String c rest =>
      match trimEnd rest with
      | EmptyString => if isWhiteSpace c then EmptyString else String c EmptyString
      | rest' => String c rest'
      end
  end.

Definition trim (s : string) : string := trimEnd (trimStart s).

(** [s.split(re)] for the regular expression of [convertGoal], which has
    two groups: the relation, [:=] or else [:], and then any characters up
    to the end of the string.  It matches at the first colon and takes
    [:=] if an equals sign follows, so that the array holds the text before
    the colon, the relation, the rest of the string and an empty string;
    without a colon it holds [s] alone.  The result is the first three
    elements, or [None] when there is only one. *)
Fixpoint splitRelation (s : string) : option (string * string * string) :=
  match s with
  | EmptyString => None
  | String c rest =>
      if Ascii.eqb c ":"
      then match rest with
           | String "=" rest' => Some (EmptyString, ":=", rest')
           | _ => Some (EmptyString, ":", rest)
           end
      else match splitRelation rest with
           | Some (before, relation, after) => Some (String c before, relation, after)
           | None => None
           end
  end.

(** *** What the backend answers (coq-proto, coqtop) *)
Module coqProto.

(** [Hypothesis_] and [Goal_] stand for the types [Hypothesis] and [Goal].
    A hypothesis is a string, or an object [{$name: 'richpp', _: {$text,
    $children}}]. *)
Inductive Hypothesis_ (Rich : Type) :=
  | PlainText (text : string)
  | RichPP (text : string) (children : list Rich).
Arguments PlainText {Rich}.
Arguments RichPP {Rich}.

Record Goal_ (Rich : Type) := mkGoal {
  goal : Rich;
  hypotheses : list (Hypothesis_ Rich)
}.
Arguments mkGoal {Rich}.
Arguments goal {Rich}.
Arguments hypotheses {Rich}.

(** [{before: Goal_[], next?: UnfocusedGoalStack, after: Goal_[]}] *)
#[warnings="-register-all"] Inductive UnfocusedGoalStack (Rich : Type) :=
  | mkStack (before : list (Goal_ Rich)) (next : option (UnfocusedGoalStack Rich))
            (after : list (Goal_ Rich)).
Arguments mkStack {Rich}.

(** [coqtop.GoalResult]; a list that is [None] is a missing field. *)
Record GoalResult (Rich : Type) := mkGoalResult {
  goals : option (list (Goal_ Rich));
  backgroundGoals : option (UnfocusedGoalStack Rich);
  shelvedGoals : option (list (Goal_ Rich));
  abandonedGoals : option (list (Goal_ Rich))
}.
Arguments mkGoalResult {Rich}.
Arguments goals {Rich}.
Arguments backgroundGoals {Rich}.
Arguments shelvedGoals {Rich}.
Arguments abandonedGoals {Rich}.

End coqProto.

(** *** What the editor receives (protocol) *)
Module proto.

(** The expression of a hypothesis: the trimmed text after the relation, or
    the first child of the pretty-printed hypothesis ([undefined] when it
    has none). *)
Inductive Expression (Rich : Type) :=
  | Text (s : string)
  | FirstChild (child : option Rich).
Arguments Text {Rich}.
Arguments FirstChild {Rich}.

Record Hypothesis_ (Rich : Type) := mkHypothesis {
  identifier : string;
  relation : string;
  expression : Expression Rich
}.
Arguments mkHypothesis {Rich}.
Arguments identifier {Rich}.
Arguments relation {Rich}.
Arguments expression {Rich}.

Record Goal_ (Rich : Type) := mkGoal {
  goal : Rich;
  hypotheses : list (Hypothesis_ Rich)
}.
Arguments mkGoal {Rich}.
Arguments goal {Rich}.
Arguments hypotheses {Rich}.

#[warnings="-register-all"] Inductive UnfocusedGoalStack (Rich : Type) :=
  | mkStack (before : list (Goal_ Rich)) (next : option (UnfocusedGoalStack Rich))
            (after : list (Goal_ Rich)).
Arguments mkStack {Rich}.

(** [proto.CoqTopGoalResult]; the object [{}] has no field at all. *)
Record CoqTopGoalResult (Rich : Type) := mkCoqTopGoalResult {
  goals : option (list (Goal_ Rich));
  backgroundGoals : option (UnfocusedGoalStack Rich);
  shelvedGoals : option (list (Goal_ Rich));
  abandonedGoals : option (list (Goal_ Rich));
  focus : option Position
}.
Arguments mkCoqTopGoalResult {Rich}.
Arguments goals {Rich}.
Arguments backgroundGoals {Rich}.
Arguments shelvedGoals {Rich}.
Arguments abandonedGoals {Rich}.
Arguments focus {Rich}.

(** [{}] *)
Definition empty {Rich} : CoqTopGoalResult Rich :=
  mkCoqTopGoalResult None None None None None.

End proto.

(** Modelled from the spec: "coqGoal() -> goals", the goal request of the
    backend transport. *)
Class CoqTopGoal (B Rich : Type) := {
  top_coqGoal : B → (Rejection + coqProto.GoalResult Rich) * B
}.

Section Goals.

Context {B : Type} `{!CoqTop B} {Rich : Type} `{!CoqTopGoal B Rich}.

Abbreviation STM := (CoqStateMachine B).
Abbreviation M := (@M B).

(** [array.map(f)] with a callback that may throw. *)
Fixpoint arrayMap {A C} (f : A → M C) (l : list A) : M (list C) :=
  match l with
  | [] => ret []
  | x :: l' => y <- f x ;; ys <- arrayMap f l' ;; ret (y :: ys)
  end.

(** The callback of [goal.hypotheses.map]: [h[1].trim()] is a [TypeError]
    when the text has no colon. *)
Definition convertHypothesis (hyp : coqProto.Hypothesis_ Rich)
  : M (proto.Hypothesis_ Rich) :=
  match hyp with
  | coqProto.RichPP text children =>
      match splitRelation text with
      | Some (h0, h1, _) =>
          ret (proto.mkHypothesis (trim h0) (trim h1) (proto.FirstChild (head children)))
      | None => throw TypeError
      end
  | coqProto.PlainText text =>
      match splitRelation text with
      | Some (h0, h1, h2) =>
          ret (proto.mkHypothesis (trim h0) (trim h1) (proto.Text (trim h2)))
      | None => throw TypeError
      end
  end.

Definition convertGoal (goal : coqProto.Goal_ Rich) : M (proto.Goal_ Rich) :=
  hyps <- arrayMap convertHypothesis (coqProto.hypotheses goal) ;;
  ret (proto.mkGoal (coqProto.goal goal) hyps).

Fixpoint convertStack (focusStack : coqProto.UnfocusedGoalStack Rich)
  : M (proto.UnfocusedGoalStack Rich) :=
  match focusStack with
  | coqProto.mkStack before next after =>
      before' <- arrayMap convertGoal before ;;
      next' <- match next with
               | Some stack => stack' <- convertStack stack ;; ret (Some stack')
               | None => ret None
               end ;;
      after' <- arrayMap convertGoal after ;;
      ret (proto.mkStack before' next' after')
  end.

(** [if(focusStack) ... else return null] *)
Definition convertUnfocusedGoals (focusStack : option (coqProto.UnfocusedGoalStack Rich))
  : M (option (proto.UnfocusedGoalStack Rich)) :=
  match focusStack with
  | Some stack => stack' <- convertStack stack ;; ret (Some stack')
  | None => ret None
  end.

(** [goals ? goals.map(this.convertGoal) : undefined] *)
Definition convertOptionalGoals (goals : option (list (coqProto.Goal_ Rich)))
  : M (option (list (proto.Goal_ Rich))) :=
  match goals with
  | Some l => l' <- arrayMap convertGoal l ;; ret (Some l')
  | None => ret None
  end.

Definition convertGoals (goals : coqProto.GoalResult Rich)
  : M (proto.CoqTopGoalResult Rich) :=
  goals' <- convertOptionalGoals (coqProto.goals goals) ;;
  backgroundGoals' <- convertUnfocusedGoals (coqProto.backgroundGoals goals) ;;
  shelvedGoals' <- convertOptionalGoals (coqProto.shelvedGoals goals) ;;
  abandonedGoals' <- convertOptionalGoals (coqProto.abandonedGoals goals) ;;
  focus <- getFocusedPosition ;;
  ret (proto.mkCoqTopGoalResult goals' backgroundGoals' shelvedGoals' abandonedGoals'
         (Some focus)).

(** [await this.coqtop.coqGoal()]; the events of the trace have no entry
    for this request. *)
Definition awaitGoal : M (coqProto.GoalResult Rich) :=
  top <- gets coqtop ;;
  let '(answer, top') := top_coqGoal top in
  modify (set_coqtop top') ;;
  match answer with
  | inr x => ret x
  | inl r => throw (exnOfRejection r)
  end.

(** "Return the goal for the currently focused state" *)
Definition getGoal : M (proto.CoqTopGoalResult Rich) :=
  ready <- isCoqReady ;;
  if negb ready then ret proto.empty
  else
    tryCatch
      (result <- awaitGoal ;;
       convertGoals result)
      (λ err, ret proto.empty).

End Goals.

(** ** Enumerating the sentences *)

Section Enumerations.

Context {B : Type} `{!CoqTop B}.

(** [public *getSentences()]: a generator, run to its end here; the result
    is what it yields, in order, and how it ends.  A bare [yield] yields
    [undefined] ([None]), and the generator goes on after it. *)
Definition getSentences (st : CoqStateMachine B)
  : list (option (Range * SentenceStatus)) * Res unit :=
  let first := if negb (running st) then [None] else [] in
  match root st with
  | None => (first, Throw TypeError)
  | Some rt =>
      (first ++
         ((λ sent, Some (Sentence.getRange (heap st) sent, Sentence.getStatus (heap st) sent))
            <$> Sentence.descendants (heap st) rt),
       Ok ())
  end.

End Enumerations.

(** ** Notions for the statements about goals, queries, feedback and edits *)

Section GoalSpecification.

Context {Rich : Type}.

Definition hasColon (s : string) : bool :=
  existsb (λ c, Ascii.eqb c ":") (list_ascii_of_string s).

Definition hypothesisText (hyp : coqProto.Hypothesis_ Rich) : string :=
  match hyp with
  | coqProto.PlainText text => text
  | coqProto.RichPP text _ => text
  end.

(** Every hypothesis has a colon. *)
Definition goalHasRelations (goal : coqProto.Goal_ Rich) : bool :=
  forallb (λ hyp, hasColon (hypothesisText hyp)) (coqProto.hypotheses goal).

Fixpoint stackHasRelations (stack : coqProto.UnfocusedGoalStack Rich) : bool :=
  match stack with
  | coqProto.mkStack before next after =>
      forallb goalHasRelations before
      && match next with
         | Some stack' => stackHasRelations stack'
         | None => true
         end
      && forallb goalHasRelations after
  end.

Definition answerHasRelations (result : coqProto.GoalResult Rich) : bool :=
  from_option (forallb goalHasRelations) true (coqProto.goals result)
  && from_option stackHasRelations true (coqProto.backgroundGoals result)
  && from_option (forallb goalHasRelations) true (coqProto.shelvedGoals result)
  && from_option (forallb goalHasRelations) true (coqProto.abandonedGoals result).

(** What conversion keeps of a goal: its text and the number of its
    hypotheses. *)
Definition outlineBefore (goal : coqProto.Goal_ Rich) : Rich * nat :=
  (coqProto.goal goal, length (coqProto.hypotheses goal)).

Definition outlineAfter (goal : proto.Goal_ Rich) : Rich * nat :=
  (proto.goal goal, length (proto.hypotheses goal)).

Definition outlinesBefore (goals : option (list (coqProto.Goal_ Rich)))
  : option (list (Rich * nat)) :=
  match goals with
  | Some l => Some (outlineBefore <$> l)
  | None => None
  end.

Definition outlinesAfter (goals : option (list (proto.Goal_ Rich)))
  : option (list (Rich * nat)) :=
  match goals with
  | Some l => Some (outlineAfter <$> l)
  | None => None
  end.

End GoalSpecification.

Section MoreSpecification.

Context {B : Type} `{!CoqTop B}.

(** Two states with the same document: they differ at most in the backend
    and in the events recorded. *)
Definition sameDocument (st st' : CoqStateMachine B) : Prop :=
  version st' = version st ∧ root st' = root st ∧ sentences st' = sentences st ∧
  focusedSentence st' = focusedSentence st ∧ lastSentence st' = lastSentence st ∧
  bufferedFeedback st' = bufferedFeedback st ∧ running st' = running st ∧
  callbacks st' = callbacks st ∧ console st' = console st ∧ heap st' = heap st.

(** The position that [getFocusedPosition] returns ([getFocusedPosition]
    never throws). *)
Definition focusPosition (st : CoqStateMachine B) : Position :=
  match fst (getFocusedPosition st) with
  | Ok p => p
  | Throw _ => mkPosition 0 0
  end.



(** The state after the inconsistent-state handler has run on a live
    machine for the exception [e]. *)
Definition died (e : Exn) (st : CoqStateMachine B) : CoqStateMachine B :=
  disposed (set_trace
              (trace st ++ [CoqDied (Some ("Inconsistent state: " +:+ toString e))]) st).

(** The state after the two lines that [iterateAdvanceFocus] logs before
    every add. *)
Definition logged (st : CoqStateMachine B) : CoqStateMachine B :=
  set_trace (trace st ++ [ConsoleLog "1"; ConsoleLog "2"]) st.

(** A backend that never reports an unfocused state when it accepts a
    command. *)
Definition neverUnfocuses : Prop :=
  ∀ text version id verbose (top top' : B) value,
    top_coqAddCommand text version id verbose top = (inr value, top') →
    add_unfocusedStateId value = None.

End MoreSpecification.

(** A string that does not begin with white space. *)
Definition startsBlack (s : string) : Prop :=
  match s with
  | EmptyString => True
  | String c _ => isWhiteSpace c = false
  end.

Section GoalConversion.

Context {B : Type} `{!CoqTop B} {Rich : Type}.

(** A computation that leaves the state alone and succeeds, with a result
    in [P], exactly when [ok]; otherwise it throws a [TypeError]. *)
Definition decides {C} (m : @M B C) (ok : bool) (P : CoqStateMachine B → C → Prop) : Prop :=
  ∀ st, if ok then ∃ y, m st = (Ok y, st) ∧ P st y else m st = (Throw TypeError, st).

(** What [convertGoals] makes of an answer in which every hypothesis has a
    colon. *)
Definition converted (st : CoqStateMachine B) (result : coqProto.GoalResult Rich)
    (r : proto.CoqTopGoalResult Rich) : Prop :=
  outlinesAfter (proto.goals r) = outlinesBefore (coqProto.goals result) ∧
  (is_Some (proto.backgroundGoals r) ↔ is_Some (coqProto.backgroundGoals result)) ∧
  outlinesAfter (proto.shelvedGoals r) = outlinesBefore (coqProto.shelvedGoals result) ∧
  outlinesAfter (proto.abandonedGoals r) = outlinesBefore (coqProto.abandonedGoals result) ∧
  ∃ p, fst (getFocusedPosition st) = Ok p ∧ proto.focus r = Some p.

End GoalConversion.

(** ** A counting backend and more examples *)

(** A backend that is always running and accepts every command under the
    next free state id; it never reports a new focus. *)
Record Counting := mkCounting { nextId : StateId }.

#[global] Instance Counting_top : CoqTop Counting := {|
  top_isRunning _ := true;
  top_resetCoq b := (inr (nextId b), mkCounting (S (nextId b)));
  top_coqAddCommand _ _ _ _ b :=
    (inr (mkAddValue (nextId b) None), mkCounting (S (nextId b)));
  top_coqEditAt _ b := (inr (mkEditAtValue None), b);
  top_coqQuery _ _ b := (inr "", b);
  top_coqQuit b := (inr (), b);
  top_coqInterrupt b := (inr (), b);
  top_coqResizeWindow _ b := b;
  top_coqLtacProfilingResults _ b := (inr (), b);
  top_dispose b := b
|}.

Module MoreExamples.

Import Examples.

(** A machine on the counting backend, initialised with root state 1. *)
Definition counting : CoqStateMachine Counting :=
  exec (initialize 1) (newMachine (mkCounting 2)).

(** A new machine whose backend is running already. *)
Definition uninitialised : CoqStateMachine Scripted :=
  newMachine (mkScripted true 1 [] []).


(** An edit behind "A.". *)
Definition editBehindA : TextChange := mkTextChange (rng 0 5 0 6) "x".

(** "A." accepted on a backend that has stopped since. *)
Definition stopped : CoqStateMachine Scripted :=
  set_coqtop (mkScripted false 1 [] []) (afterA [] []).

(** "A.B.C.D." stepped through, then a jump into the proof at "A." that
    cuts out "B." (as in [jumpedIntoProof]); the backend will accept the
    next command under state 6 and report the unfocused state 5 ("D."). *)
Definition patched : CoqStateMachine Scripted :=
  exec (interpretToPoint 10 (pos 0 3) parser)
    (exec (stepForward 10 parser false)
       (exec (stepForward 10 parser false)
          (exec (stepForward 10 parser false)
             (exec (stepForward 10 parser false)
                (started [accept 2; accept 3; accept 4; accept 5; acceptUnfocused 6 5]
                         [refocused 4]))))).

End MoreExamples.


(** ** Proofs *)

#[local] Arguments Sentence.add : simpl never.
#[local] Arguments Sentence.updateStatus : simpl never.
#[local] Arguments Sentence.get : simpl never.
#[local] Arguments Sentence.getStateId : simpl never.
#[local] Arguments Sentence.getRange : simpl never.
#[local] Arguments Sentence.getParent : simpl never.
#[local] Arguments Sentence.getChildren : simpl never.
#[local] Arguments Sentence.getStatus : simpl never.

(** *** The arena *)








(** *** The shape of the sentence tree *)

Section Tree.

Implicit Types h : Sentence.Arena.
Implicit Types a c r s : ref.
















(** **** Truncation *)













(** **** Splicing *)




Lemma elem_of_takeUntil e l x : x ∈ Sentence.takeUntil e l → x ∈ l.
Proof.
  induction l as [|y l IH]; simpl; [done|].
  case_decide; [by intros ?%elem_of_nil|].
  intros [->|?]%elem_of_cons; apply elem_of_cons; auto.
Qed.


End Tree.

Section Facts.

Context {B : Type} `{!CoqTop B}.

Abbreviation STM := (CoqStateMachine B).
Abbreviation M := (@M B).


(** *** Relations respected by every computation *)

Section Respects.

Variable R : STM → STM → Prop.
Hypothesis R_refl : ∀ st, R st st.
Hypothesis R_trans : ∀ a b c, R a b → R b c → R a c.

Lemma respects_ret {A} (a : A) : respects R (ret a).
Proof. intros st. apply R_refl. Qed.

Lemma respects_throw {A} (e : Exn) : respects R (@throw B A e).
Proof. intros st. apply R_refl. Qed.

Lemma respects_gets {A} (f : STM → A) : respects R (gets f).
Proof. intros st. apply R_refl. Qed.

Lemma respects_bind {A C} (m : M A) (k : A → M C) :
  respects R m → (∀ a, respects R (k a)) → respects R (bind m k).
Proof.
  intros Hm Hk st. unfold bind. specialize (Hm st).
  destruct (m st) as [[a|e] st1]; simpl in *; [|done].
  eapply R_trans; [exact Hm | apply Hk].
Qed.

Lemma respects_tryCatch {A} (m : M A) (handler : Exn → M A) :
  respects R m → (∀ e, respects R (handler e)) → respects R (tryCatch m handler).
Proof.
  intros Hm Hk st. unfold tryCatch. specialize (Hm st).
  destruct (m st) as [[a|e] st1]; simpl in *; [done|].
  eapply R_trans; [exact Hm | apply Hk].
Qed.

Lemma respects_forEach {A} (l : list A) (body : A → M unit) :
  (∀ x, respects R (body x)) → respects R (forEach l body).
Proof.
  intros Hb. induction l as [|x l IH]; simpl.
  - apply respects_ret.
  - apply respects_bind; auto.
Qed.

Lemma respects_modify (f : STM → STM) :
  (∀ st, R st (f st)) → respects R (modify f).
Proof. intros Hf st. apply Hf. Qed.

End Respects.


Lemma steady_refl (st : STM) : steady st st.
Proof. unfold steady. auto. Qed.

Lemma steady_trans (a b c : STM) : steady a b → steady b c → steady a c.
Proof. unfold steady. intros (? & ? & ?) (? & ? & ?). auto. Qed.

Create HintDb stm discriminated.
#[local] Hint Resolve steady_refl steady_trans : stm.

Ltac rel_side := solve [ exact steady_refl | exact steady_trans ].

(** Decompose a computation along its syntax; what remains are the state
    updates and the calls of other methods. *)
Ltac respects_split :=
  repeat first
    [ match goal with |- ∀ _, _ => intro end
    | solve [auto with stm]
    | match goal with
      | |- respects _ (ret _) => apply respects_ret; rel_side
      | |- respects _ (throw _) => apply respects_throw; rel_side
      | |- respects _ (gets _) => apply respects_gets; rel_side
      | |- respects _ (bind _ _) => apply respects_bind; [rel_side | | ]
      | |- respects _ (tryCatch _ _) => apply respects_tryCatch; [rel_side | | ]
      | |- respects _ (forEach _ _) => apply respects_forEach; [rel_side | rel_side | ]
      | |- respects _ (modify _) => apply respects_modify
      | |- respects _ (match ?x with _ => _ end) => destruct x
      end ].

(** A state update that touches none of [running], [callbacks], [console]. *)
Ltac steady_leaf := try solve [intros; unfold steady, inSync; simpl; auto].

Lemma emit_steady e : respects steady (emit (B:=B) e).
Proof. unfold emit. respects_split; steady_leaf. Qed.
#[local] Hint Resolve emit_steady : stm.

Lemma consoleWarn_steady msg : respects steady (consoleWarn (B:=B) msg).
Proof. unfold consoleWarn. respects_split; steady_leaf. Qed.

Lemma consoleLog_steady msg : respects steady (consoleLog (B:=B) msg).
Proof. unfold consoleLog. respects_split; steady_leaf. Qed.

Lemma callback_steady e : respects steady (callback (B:=B) e).
Proof. unfold callback. respects_split; steady_leaf. Qed.
#[local] Hint Resolve consoleWarn_steady consoleLog_steady callback_steady : stm.

Lemma await_steady {X} e (request : B → (Rejection + X) * B) :
  respects steady (await e request).
Proof. unfold await. respects_split; steady_leaf. Qed.

Lemma deref_steady s : respects steady (deref (B:=B) s).
Proof. unfold deref. respects_split. Qed.

Lemma theSentences_steady : respects steady (theSentences (B:=B)).
Proof. unfold theSentences. respects_split. Qed.
#[local] Hint Resolve await_steady deref_steady theSentences_steady : stm.

Lemma dispose_steady : respects steady (dispose (B:=B)).
Proof.
  intros st. unfold steady, inSync.
  unfold dispose, consoleWarn, emit, bind, gets, modify, ret, throw.
  destruct st as [? ? ? ? ? ? ? run cb co ? ?]. simpl.
  split; [|split].
  - intros ->. reflexivity.
  - intros [-> ->]. by destruct run.
  - destruct run, co; simpl; auto.
Qed.
#[local] Hint Resolve dispose_steady : stm.

Lemma shutdown_steady : respects steady (shutdown (B:=B)).
Proof. unfold shutdown. respects_split. Qed.

Lemma interrupt_steady : respects steady (interrupt (B:=B)).
Proof. unfold interrupt. respects_split. Qed.

Lemma getFocusedPosition_steady : respects steady (getFocusedPosition (B:=B)).
Proof. unfold getFocusedPosition. respects_split. Qed.
#[local] Hint Resolve getFocusedPosition_steady : stm.

Lemma handleInconsistentState_steady e : respects steady (handleInconsistentState (B:=B) e).
Proof. unfold handleInconsistentState. respects_split. Qed.

Lemma throwInconsistentState_steady {A} e :
  respects steady (throwInconsistentState (B:=B) (A:=A) e).
Proof. unfold throwInconsistentState. respects_split. Qed.
#[local] Hint Resolve handleInconsistentState_steady throwInconsistentState_steady : stm.

Lemma deleteSentence_steady s : respects steady (deleteSentence (B:=B) s).
Proof. unfold deleteSentence. respects_split; steady_leaf. Qed.
#[local] Hint Resolve deleteSentence_steady : stm.

Lemma rewindRange_steady s e : respects steady (rewindRange (B:=B) s e).
Proof. unfold rewindRange. respects_split; steady_leaf. Qed.

Lemma rewindTo_steady s : respects steady (rewindTo (B:=B) s).
Proof. unfold rewindTo. respects_split; steady_leaf. Qed.
#[local] Hint Resolve rewindRange_steady rewindTo_steady : stm.

Lemma gotoErrorFallbackState_steady id : respects steady (gotoErrorFallbackState (B:=B) id).
Proof. unfold gotoErrorFallbackState. respects_split. Qed.
#[local] Hint Resolve gotoErrorFallbackState_steady : stm.

Lemma focusSentence_steady s : respects steady (focusSentence (B:=B) s).
Proof. unfold focusSentence. respects_split; steady_leaf. Qed.
#[local] Hint Resolve focusSentence_steady : stm.

Lemma cancelSentence_steady s : respects steady (cancelSentence (B:=B) s).
Proof. unfold cancelSentence. respects_split. Qed.
#[local] Hint Resolve cancelSentence_steady : stm.

Lemma applyBufferedFeedback_steady : respects steady (applyBufferedFeedback (B:=B)).
Proof. unfold applyBufferedFeedback. respects_split; steady_leaf. Qed.
#[local] Hint Resolve applyBufferedFeedback_steady : stm.

Lemma initialize_steady id : respects steady (initialize (B:=B) id).
Proof. unfold initialize. respects_split; steady_leaf. Qed.
#[local] Hint Resolve initialize_steady : stm.

Lemma isCoqReady_steady : respects steady (isCoqReady (B:=B)).
Proof. unfold isCoqReady. respects_split. Qed.

Lemma validateState_steady i : respects steady (validateState (B:=B) i).
Proof. unfold validateState. respects_split. Qed.
#[local] Hint Resolve isCoqReady_steady validateState_steady : stm.

Lemma addCommand_steady c v : respects steady (addCommand (B:=B) c v).
Proof. unfold addCommand. respects_split; steady_leaf. Qed.
#[local] Hint Resolve addCommand_steady : stm.

Lemma advanceLoop_steady fuel cond cs v e cf nc it :
  respects steady (advanceLoop (B:=B) fuel cond cs v e cf nc it).
Proof.
  revert cf nc it. induction fuel as [|fuel IH]; intros; simpl; respects_split.
Qed.
#[local] Hint Resolve advanceLoop_steady : stm.

Lemma iterateAdvanceFocus_steady fuel cond cs v e :
  respects steady (iterateAdvanceFocus (B:=B) fuel cond cs v e).
Proof. unfold iterateAdvanceFocus. respects_split. Qed.
#[local] Hint Resolve iterateAdvanceFocus_steady : stm.

Lemma getParentSentence_steady p : respects steady (getParentSentence (B:=B) p).
Proof. unfold getParentSentence. respects_split. Qed.

Lemma getSentence_steady p : respects steady (getSentence (B:=B) p).
Proof. unfold getSentence. respects_split. Qed.
#[local] Hint Resolve getParentSentence_steady getSentence_steady : stm.

Lemma ancestorsLoop_steady fuel s cs : respects steady (ancestorsLoop (B:=B) fuel s cs).
Proof.
  revert s cs. induction fuel as [|fuel IH]; intros; simpl; respects_split; steady_leaf.
Qed.
#[local] Hint Resolve ancestorsLoop_steady : stm.

(** Whatever is done to a machine, [running] never goes back to [true]. *)
Lemma perform_steady op : respects steady (perform (B:=B) op).
Proof.
  destruct op; simpl;
    unfold stepForward, stepBackward, applyChanges, interpretToPoint, doQuery,
      setWrappingWidth, requestLtacProfResults, onCoqStateStatusUpdate,
      onCoqMessage, onCoqClosed, shutdown, interrupt;
    respects_split; steady_leaf.
Qed.


(** *** [dispose] and the inconsistent-state fault *)

Lemma dispose_alive (st : STM) : alive st → dispose st = (Ok (), disposed st).
Proof.
  intros (Hr & Hc & Hk). destruct st; simpl in *; subst.
  unfold dispose, disposed, bind, gets, modify, consoleWarn, emit; simpl.
  by rewrite <- app_assoc.
Qed.

(** C1: a command that does not start at the end of the focused sentence is
    an inconsistent-state fault: [coqDied] is called with a message that
    begins with "Inconsistent state: ", the machine is disposed, and
    [InconsistentState] is thrown; nothing is sent to the backend (the only
    events are the callback and those of [dispose]). *)
Theorem addCommand_off_focus (st : STM) (command : Command) (verbose : bool) (parent : ref) :
  alive st →
  focusedSentence st = Some parent →
  positionIsEqual (end_ (Sentence.getRange (heap st) parent)) (start (range command)) = false →
  ∃ st',
    addCommand command verbose st = (Throw (InconsistentState offFocus), st') ∧
    running st' = false ∧
    coqtop st' = top_dispose (coqtop st) ∧
    trace st' = trace st ++
      [CoqDied (Some ("Inconsistent state: " +:+ offFocus));
       ConsoleWarn "The STM manager is being disposed before being shut down";
       CoqTopDispose].
Proof.
  intros (Hr & Hc & Hk) Hf Hne. destruct st; simpl in *; subst.
  unfold addCommand, tryCatch, bind, gets, deref, ret, throwInconsistentState,
    callback, emit, modify, dispose, consoleWarn, throw; simpl.
  rewrite Hne. simpl.
  eexists; split; [reflexivity|]. simpl. by rewrite <- !app_assoc.
Qed.

(** *** Deleting sentences *)

Lemma deleteAll_snoc h l x m :
  deleteAll h (l ++ [x]) m = delete (Sentence.getStateId h x) (deleteAll h l m).
Proof. unfold deleteAll. by rewrite foldl_app. Qed.



(** *** Draining the feedback buffer *)



(** *** Adding a command *)



(** *** Rewinding *)







(** *** The focused position *)


(** A new machine has neither root nor focus, and lazy initialisation
    focuses the root, whose range is empty. *)
Lemma newMachine_unfocused (top : B) :
  root (newMachine top) = None ∧ focusedSentence (newMachine top) = None.
Proof. by split. Qed.

(** X1: lazy initialisation of a new machine: once the backend has been reset,
    the root (with an empty range at 0:0) is the focused and the last
    sentence, and the tree and the index are well formed. *)
Lemma lazy_initialisation (top top' : B) (id : StateId) :
  top_isRunning top = false →
  top_resetCoq top = (inr id, top') →
  ∃ st',
    validateState true (newMachine top) = (Ok true, st') ∧
    alive st' ∧
    root st' = Some 0 ∧ focusedSentence st' = Some 0 ∧ lastSentence st' = Some 0 ∧
    sentences st' = Some {[id := 0]} ∧
    rooted st' ∧ ordered (heap st') ∧ parentsOk (heap st') ∧ indexMirrorsTree st' ∧
    getFocusedPosition st' = (Ok (mkPosition 0 0), st').
Proof.
  intros Hrun Hreset.
  unfold validateState, await, initialize, emit.
  unfold bind, gets, modify, ret. simpl. rewrite Hrun. simpl. rewrite Hreset. simpl.
  eexists. split; [reflexivity|]. simpl.
  repeat match goal with |- _ ∧ _ => split end; try done.
  - exists 0. split; [reflexivity|]. split; [cbn; lia | reflexivity].
  - split; [apply NoDup_singleton | reflexivity].
Qed.

(** *** The backend goes away *)

Lemma onCoqClosed_silent (st : STM) error :
  falsyString error = true ∨ running st = false →
  onCoqClosed error st = (Ok (), st).
Proof.
  intros Hs. unfold onCoqClosed, bind, gets.
  destruct Hs as [-> | ->]; [done|]. by rewrite orb_true_r.
Qed.

(** On a live machine a closure with an error disposes the machine first,
    and the call of [coqDied] that follows finds [this.callbacks] cleared:
    a [TypeError] is thrown and the callback is never made. *)
Lemma onCoqClosed_alive (st : STM) error :
  alive st →
  falsyString error = false →
  onCoqClosed error st =
    (Throw TypeError,
     disposed (set_trace
                 (trace st ++ [ConsoleLog ("onCoqClosed(" +:+ default "" error +:+ ")")]) st)).
Proof.
  intros Ha Hs. pose proof Ha as (Hr & Hc & Hk).
  unfold onCoqClosed. unfold bind at 1, gets at 1. rewrite Hs, Hr. simpl.
  unfold bind at 1, consoleLog. unfold bind at 1, gets at 1. rewrite Hk.
  unfold emit, modify. unfold bind at 1.
  rewrite dispose_alive by (by destruct st).
  reflexivity.
Qed.

(** *** After disposal *)

Lemma validateState_dead_throws (st : STM) :
  running st = false →
  validateState true st = (Throw (ThrownString shutDownMessage), st).
Proof. intros Hr. unfold validateState, bind, gets. by rewrite Hr. Qed.

Lemma perform_all_dead (ops : list Operation) (st : STM) :
  running st = false →
  running (foldl (λ s op, snd (perform op s)) st ops) = false.
Proof.
  revert st. induction ops as [|op ops IH]; intros st Hr; [done|].
  simpl. apply IH. by apply perform_steady.
Qed.

(** X4: whatever has been done to a new machine, it is either running with its
    console and callbacks in place, or disposed without them: "running" and
    [alive] are the same thing. *)
Lemma reachable_inSync (top : B) (ops : list Operation) :
  inSync (foldl (λ s op, snd (perform op s)) (newMachine top) ops).
Proof.
  assert (∀ st, inSync st → inSync (foldl (λ s op, snd (perform op s)) st ops)) as H.
  { induction ops as [|op ops IH]; intros st Hs; [done|].
    simpl. apply IH. by apply perform_steady. }
  apply H. by split.
Qed.

Lemma running_alive (st : STM) : inSync st → running st = true → alive st.
Proof. intros [Hc Hk] Hr. unfold alive. by rewrite Hc, Hk, Hr. Qed.

Lemma addCommand_unrooted c v (st : STM) :
  focusedSentence st = None → addCommand c v st = (Throw TypeError, st).
Proof.
  intros Hf. unfold addCommand, tryCatch. unfold bind at 1, gets at 1.
  rewrite Hf. reflexivity.
Qed.

Lemma pristine_trace t (st : STM) : pristine st → pristine (set_trace t st).
Proof. by destruct st. Qed.

Lemma consoleLog_unrooted msg (st : STM) :
  pristine st → pristine (snd (consoleLog msg st)).
Proof.
  intros Hp. unfold consoleLog, emit, bind, gets, modify, throw.
  destruct (console st); simpl; [by apply pristine_trace | done].
Qed.

Lemma advanceLoop_unrooted fuel cond cs v e cf nc it (st : STM) :
  pristine st → pristine (snd (advanceLoop fuel cond cs v e cf nc it st)).
Proof.
  intros Hp. destruct fuel as [|fuel], nc as [c|]; simpl; try done.
  destruct (negb _); [done|].
  unfold bind at 1. pose proof (consoleLog_unrooted "1" st Hp) as H1.
  destruct (consoleLog "1" st) as [[[]|e1] st1]; simpl in *; [|done].
  destruct (next it) as [nc' it'].
  unfold bind at 1. pose proof (consoleLog_unrooted "2" st1 H1) as H2.
  destruct (consoleLog "2" st1) as [[[]|e2] st2]; simpl in *; [|done].
  unfold bind at 1. rewrite addCommand_unrooted by apply H2. done.
Qed.

Lemma iterateAdvanceFocus_unrooted fuel cond cs v e (st : STM) :
  pristine st → pristine (snd (iterateAdvanceFocus fuel cond cs v e st)).
Proof.
  intros Hp. unfold iterateAdvanceFocus, getFocusedPosition.
  unfold bind at 1. unfold bind at 1, gets at 1.
  destruct Hp as (Hr & Hf & Hl & Hs). rewrite Hf. simpl.
  destruct (next _) as [nc it]. by apply advanceLoop_unrooted.
Qed.

Lemma dispose_unrooted (st : STM) : pristine st → pristine (snd (dispose st)).
Proof.
  unfold pristine, dispose, consoleWarn, emit, bind, gets, modify, ret, throw.
  destruct st as [? ? ? ? ? ? ? run cb co ? ?]. simpl.
  intros (-> & -> & -> & ->). by destruct run, co.
Qed.

Lemma callback_unrooted e (st : STM) : pristine st → pristine (snd (callback e st)).
Proof.
  intros Hp. unfold callback, emit, bind, gets, modify, throw.
  destruct (callbacks st); simpl; [by apply pristine_trace | done].
Qed.

Lemma await_unrooted {X} e (request : B → (Rejection + X) * B) (st : STM) :
  pristine st → pristine (snd (await e request st)).
Proof.
  unfold pristine, await, emit, bind, gets, modify, ret, throw.
  destruct st. simpl. intros (-> & -> & -> & ->).
  by destruct (request _) as [[?|?] ?].
Qed.

(** The three ways [validateState(true)] can end on a machine without
    root: it throws, it finds the backend running and changes nothing, or
    it initialises the machine. *)
Lemma validateState_unrooted (st : STM) :
  pristine st →
  (∃ e st', validateState true st = (Throw e, st') ∧ pristine st') ∨
  validateState true st = (Ok true, st) ∨
  (∃ st', validateState true st = (Ok true, st') ∧ is_Some (root st')).
Proof.
  unfold pristine, validateState, await, initialize, emit, bind, gets, modify, ret, throw.
  destruct st as [? ? ? ? ? top ? run ? ? h ?]. simpl. intros (-> & -> & -> & ->).
  destruct run; simpl; [|left; do 2 eexists; by repeat split].
  destruct (top_isRunning top) eqn:Htop; simpl; [by right; left|].
  destruct (top_resetCoq top) as [[r|id] top'] eqn:Hreset; simpl.
  - left. do 2 eexists. by repeat split.
  - right; right. eexists. split; [reflexivity|]. by eexists.
Qed.

(** An operation gated on [validateState(true)], on a machine without
    root. *)
Lemma gated_unrooted {A} (rest : M A) (st : STM) :
  respects steady rest →
  (∀ st, pristine st → pristine (snd (rest st))) →
  pristine st →
  let st' := snd ((validateState true ;; rest) st) in
  pristine st' ∨ is_Some (root st').
Proof.
  intros Hsteady Hrest Hp. unfold bind.
  destruct (validateState_unrooted st Hp) as [(e & st' & -> & Hp') | [-> | (st' & -> & Hroot)]].
  - by left.
  - left. by apply Hrest.
  - right. by apply Hsteady.
Qed.

Lemma getFocusedPosition_unrooted (st : STM) :
  pristine st → getFocusedPosition st = (Ok (mkPosition 0 0), st).
Proof. intros (_ & Hf & _). unfold getFocusedPosition, bind, gets. by rewrite Hf. Qed.

Lemma positionIsBefore_origin (p : Position) :
  positionIsBefore p (mkPosition 0 0) = false.
Proof. unfold positionIsBefore. simpl. by destruct (line p), (character p). Qed.

(** Before the lazy initialisation nothing is focused: every operation on a
    machine without root leaves it without root, focus, last sentence and
    index, unless it creates the root. *)
Lemma perform_unrooted (op : Operation) (st : STM) :
  pristine st →
  pristine (snd (perform op st)) ∨ is_Some (root (snd (perform op st))).
Proof.
  intros Hp.
  destruct op as [ | | | fuel cs verbose | | changes v | fuel position cs
                | query position | columns | position | id | id route status worker
                | level message | error ]; simpl.
  - left. by apply dispose_unrooted.
  - left. unfold shutdown. unfold bind at 1, gets at 1.
    destruct (negb _); [done|]. unfold bind at 1.
    pose proof (await_unrooted CoqQuit top_coqQuit st Hp) as Hq.
    destruct (await _ _ st) as [[[]|e] st1]; simpl in *; [|done].
    by apply dispose_unrooted.
  - left. by apply await_unrooted.
  - apply gated_unrooted; [respects_split | | done].
    intros s Hs. unfold bind. rewrite getFocusedPosition_unrooted by done.
    by apply iterateAdvanceFocus_unrooted.
  - apply gated_unrooted; [respects_split | | done].
    intros s Hs. unfold bind, gets, cancelSentence. destruct Hs as (? & Hf & ?).
    by rewrite Hf.
  - left. unfold applyChanges. unfold bind at 1, gets at 1.
    destruct (_ || _); [done|]. unfold bind at 1, tryCatch.
    unfold bind at 1, gets at 1. pose proof Hp as (_ & _ & Hl & _). rewrite Hl. simpl.
    unfold handleInconsistentState. unfold bind at 1.
    pose proof (callback_unrooted
      (CoqDied (Some ("Inconsistent state: " +:+ toString TypeError))) st Hp) as Hc.
    destruct (callback _ st) as [[[]|e] st1]; simpl in *; [|done].
    pose proof (dispose_unrooted st1 Hc) as Hd.
    destruct (dispose st1) as [[[]|e] st2]; simpl in *; [|done].
    by destruct st2.
  - apply gated_unrooted; [respects_split | | done].
    intros s Hs. unfold bind at 1.
    pose proof (iterateAdvanceFocus_unrooted fuel
      (λ command _, positionIsAfterOrEqual position (end_ (range command)))
      cs true (Some position) s Hs) as Hi.
    destruct (iterateAdvanceFocus _ _ _ _ _ s) as [[[]|e] st1]; simpl in *; [|done].
    unfold bind. rewrite getFocusedPosition_unrooted by done.
    by rewrite positionIsBefore_origin.
  - assert (pristine (snd (doQuery query position st)) ∨
            is_Some (root (snd (doQuery query position st)))) as H.
    { apply gated_unrooted; [respects_split | | done].
      intros s Hs. destruct position as [pos|].
      - unfold bind at 1, getParentSentence. unfold bind at 1. unfold bind at 1, gets at 1.
        destruct Hs as (Hr & ?). by rewrite Hr.
      - unfold bind at 1, ret at 1. by apply await_unrooted. }
    unfold bind. by destruct (doQuery query position st) as [[?|?] ?].
  - left. unfold setWrappingWidth, isCoqReady, emit, bind, gets, modify, ret.
    simpl. destruct (_ && _); simpl; [by destruct st | done].
  - left. unfold requestLtacProfResults, isCoqReady. unfold bind at 1.
    unfold bind, gets, ret. simpl. destruct (negb _); [done|].
    destruct position as [pos|].
    + unfold getSentence, bind, gets. destruct Hp as (Hr & ?). by rewrite Hr.
    + by apply await_unrooted.
  - unfold initialize, bind, gets, modify, throw. destruct Hp as (Hr & ?).
    rewrite Hr. rewrite bool_decide_eq_false_2 by (by intros [? ?]).
    destruct (negb _); simpl; [by left | right; by eexists].
  - left. unfold onCoqStateStatusUpdate, theSentences, bind, gets.
    destruct Hp as (? & ? & ? & Hs). by rewrite Hs.
  - left. by apply callback_unrooted.
  - left. unfold onCoqClosed. unfold bind at 1, gets at 1.
    destruct (_ || _); [done|]. unfold bind at 1.
    pose proof (consoleLog_unrooted ("onCoqClosed(" +:+ default "" error +:+ ")") st Hp) as Hc.
    destruct (consoleLog _ st) as [[[]|e] st1]; simpl in *; [|done].
    unfold bind at 1. pose proof (dispose_unrooted st1 Hc) as Hd.
    destruct (dispose st1) as [[[]|e] st2]; simpl in *; [|done].
    by apply callback_unrooted.
Qed.

(** X5: a machine without root has no focused sentence, whatever has been
    done to it since it was created. *)
Lemma reachable_unfocused (top : B) (ops : list Operation) :
  let st := foldl (λ s op, snd (perform op s)) (newMachine top) ops in
  root st = None → focusedSentence st = None.
Proof.
  assert (∀ st, pristine st ∨ is_Some (root st) →
    let st' := foldl (λ s op, snd (perform op s)) st ops in
    pristine st' ∨ is_Some (root st')) as H.
  { induction ops as [|op ops IH]; intros st Hs; [done|].
    simpl. apply IH. destruct Hs as [Hp | Hr].
    - by apply perform_unrooted.
    - right. by apply perform_steady. }
  intros st Hroot. destruct (H (newMachine top)) as [Hp | [r Hr]].
  - left. by repeat split.
  - apply Hp.
  - fold st in Hr. congruence.
Qed.

(** C9: on a disposed machine ([running] is false) the operations gated on
    [validateState(true)] throw and leave the state as it is, [initialize]
    throws, and no sequence of operations and feedback events makes
    [running] true again. *)
Theorem disposed_is_final (st : STM) :
  running st = false →
  (∀ fuel cs verbose,
     stepForward fuel cs verbose st = (Throw (ThrownString shutDownMessage), st)) ∧
  stepBackward st = (Throw (ThrownString shutDownMessage), st) ∧
  (∀ fuel position cs,
     interpretToPoint fuel position cs st = (Throw (ThrownString shutDownMessage), st)) ∧
  (∀ query position,
     doQuery query position st = (Throw (ThrownString shutDownMessage), st)) ∧
  (∀ id, ∃ message, initialize id st = (Throw (ThrownString message), st)) ∧
  (∀ ops, running (foldl (λ s op, snd (perform op s)) st ops) = false).
Proof.
  intros Hr. repeat split.
  - intros. unfold stepForward. unfold bind at 1. by rewrite validateState_dead_throws.
  - unfold stepBackward. unfold bind at 1. by rewrite validateState_dead_throws.
  - intros. unfold interpretToPoint. unfold bind at 1. by rewrite validateState_dead_throws.
  - intros. unfold doQuery. unfold bind at 1. by rewrite validateState_dead_throws.
  - intros id. unfold initialize, bind, gets. destruct (root st) as [r|].
    + rewrite bool_decide_eq_true_2 by (by eexists). eexists; reflexivity.
    + rewrite bool_decide_eq_false_2 by (by intros [? ?]). rewrite Hr.
      eexists; reflexivity.
  - intros ops. by apply perform_all_dead.
Qed.


(** *** Rewinding and the state-id index *)



(** *** Focusing a sentence *)




(** *** Edit reconciliation *)

Ltac position_cases :=
  unfold laterFirst, startsBefore, positionIsAfterOrEqual, positionIsBeforeOrEqual,
    positionIsAfter, positionIsBefore, positionIsEqual in *;
  repeat match goal with
         | H : context [?a <? ?b] |- _ => destruct (Nat.ltb_spec a b)
         | H : context [?a =? ?b] |- _ => destruct (Nat.eqb_spec a b)
         | |- context [?a <? ?b] => destruct (Nat.ltb_spec a b)
         | |- context [?a =? ?b] => destruct (Nat.eqb_spec a b)
         end;
  simpl in *; try done; try lia.

Lemma laterFirst_trans (c1 c2 c3 : TextChange) :
  laterFirst c1 c2 → laterFirst c2 c3 → laterFirst c1 c3.
Proof. position_cases. Qed.

Lemma laterFirst_after (c x : TextChange) :
  positionIsAfter (start (change_range c)) (start (change_range x)) = true →
  laterFirst c x.
Proof. position_cases. Qed.

Lemma startsBefore_later (sentEnd : Position) (c x : TextChange) :
  laterFirst c x → startsBefore sentEnd c = true → startsBefore sentEnd x = true.
Proof. position_cases. Qed.

Lemma insertChange_perm c l : insertChange c l ≡ₚ c :: l.
Proof.
  induction l as [|x l IH]; simpl; [done|].
  destruct (positionIsAfter _ _); [done|].
  rewrite IH. apply Permutation_swap.
Qed.

Lemma insertChange_sorted c l :
  StronglySorted laterFirst l → StronglySorted laterFirst (insertChange c l).
Proof.
  induction 1 as [|x l Hl IH Hx]; simpl.
  - repeat constructor.
  - destruct (positionIsAfter _ _) eqn:Hc.
    + constructor; [by constructor|].
      apply laterFirst_after in Hc. constructor; [done|].
      eapply Forall_impl; [exact Hx|]. intros y Hy. by eapply laterFirst_trans.
    + constructor; [done|].
      rewrite (insertChange_perm c l). by constructor.
Qed.

(** The sort puts edits with greater start first and loses none. *)
Lemma sortChanges_spec changes :
  sortChanges changes ≡ₚ changes ∧ StronglySorted laterFirst (sortChanges changes).
Proof.
  unfold sortChanges. induction changes as [|c l [IHp IHs]]; simpl.
  - split; [done | constructor].
  - split; [by rewrite insertChange_perm, IHp | by apply insertChange_sorted].
Qed.

(** On a list sorted that way, shifting from the front drops every edit
    that starts at or after the end of the sentence. *)
Lemma shiftWhile_filter sentEnd l :
  StronglySorted laterFirst l →
  shiftWhile sentEnd l = List.filter (startsBefore sentEnd) l.
Proof.
  induction 1 as [|c l Hl IH Hc]; simpl; [done|].
  unfold startsBefore at 1.
  destruct (positionIsAfterOrEqual _ _) eqn:Hge; simpl; [done|].
  f_equal. symmetry. apply forallb_filter_id, forallb_forall.
  intros x Hx%list_elem_of_In. rewrite Forall_forall in Hc.
  apply (startsBefore_later sentEnd c x); [by apply Hc|].
  unfold startsBefore. by rewrite Hge.
Qed.

Lemma shiftWhile_sorted sentEnd l :
  StronglySorted laterFirst l → StronglySorted laterFirst (shiftWhile sentEnd l).
Proof.
  induction 1 as [|c l Hl IH Hc]; simpl; [constructor|].
  destruct (positionIsAfterOrEqual _ _); [done | by constructor].
Qed.

Lemma bind_ext {A C} (m : M A) (k k' : A → M C) st :
  (∀ a st', k a st' = k' a st') → bind m k st = bind m k' st.
Proof. intros Hk. unfold bind. destruct (m st) as [[a|e] st']; [apply Hk | done]. Qed.

(** The walk of the source is the walk of the specification. *)
Lemma ancestorsLoop_reconcile fuel sent edits (st : STM) :
  StronglySorted laterFirst edits →
  ancestorsLoop fuel sent edits st = reconcile fuel sent edits st.
Proof.
  revert sent edits st. induction fuel as [|fuel IH]; intros sent edits st Hs; [done|].
  destruct sent as [s|]; [|done]. simpl.
  apply bind_ext. intros h st1.
  pose proof (shiftWhile_sorted (end_ (Sentence.getRange h s)) edits Hs) as Hs'.
  rewrite <- shiftWhile_filter by done.
  destruct (shiftWhile (end_ (Sentence.getRange h s)) edits) as [|c rest]; [done|].
  rewrite bool_decide_eq_false_2 by done.
  destruct (Sentence.applyTextChanges s (c :: rest) h) as [invalidated h'].
  apply bind_ext. intros _ st2. apply bind_ext. intros _ st3.
  apply bind_ext. intros h'' st4. by apply IH.
Qed.

(** The walk invokes [cancelSentence] exactly when the sentence is reported
    invalidated; but cancelling a sentence whose parent has the focus does
    nothing at all. *)
Lemma cancelSentence_parent_focused (st : STM) (s : ref) :
  Sentence.getParent (heap st) s = focusedSentence st →
  cancelSentence (Some s) st = (Ok (), st).
Proof.
  intros Hp. unfold cancelSentence, deref, focusSentence, bind, ret, gets.
  by rewrite Hp, decide_True.
Qed.

(** Before the first step there is no last sentence: [applyChanges] with an
    edit then runs into a [TypeError], which its handler reports as an
    inconsistent state, and the machine is disposed. *)
Lemma applyChanges_before_initialisation (top : B) changes newVersion :
  changes ≠ [] →
  applyChanges changes newVersion (newMachine top) =
    (Ok (),
     set_version newVersion
       (disposed (set_trace [CoqDied (Some "Inconsistent state: TypeError")]
                    (newMachine top)))).
Proof.
  intros Hne. destruct changes as [|c changes]; [done|]. reflexivity.
Qed.

(** [applyChanges] on a running machine with edits: the edits are sorted
    with later starts first, and the sentences are visited from the last
    one through its ancestors as the specification describes, each visit
    cancelling the sentence when it is invalidated. *)
Lemma applyChanges_reconciles (st : STM) changes newVersion (last : ref) :
  running st = true →
  changes ≠ [] →
  lastSentence st = Some last →
  sortChanges changes ≡ₚ changes ∧
  StronglySorted laterFirst (sortChanges changes) ∧
  applyChanges changes newVersion st =
    (tryCatch (reconcile (length (heap st)) (Some last) (sortChanges changes))
              handleInconsistentState ;;
     modify (set_version newVersion)) st.
Proof.
  intros Hr Hne Hl. destruct (sortChanges_spec changes) as [Hp Hs].
  split; [done|]. split; [done|].
  unfold applyChanges. unfold bind at 1, gets at 1. rewrite Hr.
  destruct changes as [|c changes]; [done|]. cbn [negb orb length Nat.eqb].
  unfold bind at 1 3. f_equal.
  unfold tryCatch. unfold bind at 1, gets at 1. rewrite Hl.
  unfold bind at 1, deref, ret at 1. unfold bind at 1, gets at 1.
  by rewrite ancestorsLoop_reconcile.
Qed.

End Facts.

(** ** Scenarios on the scripted backend *)

Section Scenarios.

Import Examples.

(** Evaluate both sides of every conjunct. *)
Ltac evaluate :=
  repeat match goal with |- _ ∧ _ => split end; vm_compute; done.

(** C1, witnessed on an initialised machine whose focus is the root (which
    ends at 0:0) and the command "B." (which starts at 0:2). *)
Lemma addCommand_off_focus_witness :
  alive (started [] []) ∧
  ∃ st',
    addCommand cmdB false (started [] []) = (Throw (InconsistentState offFocus), st') ∧
    running st' = false ∧
    coqtop st' = top_dispose (coqtop (started [] [])) ∧
    trace st' = trace (started [] []) ++
      [CoqDied (Some ("Inconsistent state: " +:+ offFocus));
       ConsoleWarn "The STM manager is being disposed before being shut down";
       CoqTopDispose].
Proof.
  split; [by vm_compute|].
  apply (addCommand_off_focus (started [] []) cmdB false 0);
    [by vm_compute | by vm_compute | by vm_compute].
Defined.






(** C7 fails on the code: when the backend closes with an error on a live
    machine, the machine is disposed, but [coqDied] is never called: a
    [TypeError] is thrown instead, since [dispose] has cleared
    [this.callbacks]. *)
Theorem onCoqClosed_never_notifies :
  outcome (onCoqClosed (Some "crash")) (afterA [] []) = Throw TypeError ∧
  running (exec (onCoqClosed (Some "crash")) (afterA [] [])) = false ∧
  trace (exec (onCoqClosed (Some "crash")) (afterA [] []))
    = trace (afterA [] []) ++
      [ConsoleLog "onCoqClosed(crash)";
       ConsoleWarn "The STM manager is being disposed before being shut down";
       CoqTopDispose].
Proof. evaluate. Qed.

(** C8 fails on the code: after a jump into a proof, "C." (state 4) hangs
    under the focused sentence "A." and "D." is the last sentence.  An edit
    inside "C." leaves "D." alone and invalidates "C."; cancelling "C."
    means focusing "A.", which already has the focus: no edit-at is sent,
    and "C." stays in the tree and in the index. *)
Theorem applyChanges_keeps_invalidated :
  running jumpedIntoProof = true ∧
  treeMembers jumpedIntoProof = [0; 1; 3; 4] ∧
  lastSentence jumpedIntoProof = Some 4 ∧
  Sentence.getParent (heap jumpedIntoProof) 4 = Some 3 ∧
  Sentence.getParent (heap jumpedIntoProof) 3 = focusedSentence jumpedIntoProof ∧
  Sentence.applyTextChanges 4 (sortChanges [editInC]) (heap jumpedIntoProof)
    = (false, heap jumpedIntoProof) ∧
  fst (Sentence.applyTextChanges 3 (sortChanges [editInC]) (heap jumpedIntoProof)) = true ∧
  outcome (applyChanges [editInC] 1) jumpedIntoProof = Ok () ∧
  trace (exec (applyChanges [editInC] 1) jumpedIntoProof) = trace jumpedIntoProof ∧
  treeMembers (exec (applyChanges [editInC] 1) jumpedIntoProof) = [0; 1; 3; 4] ∧
  sentences (exec (applyChanges [editInC] 1) jumpedIntoProof) ≫= (.!! 4) = Some 3.
Proof. evaluate. Qed.



(** C9, witnessed on a machine disposed after its first sentence. *)
Lemma disposed_is_final_witness :
  running (exec dispose (afterA [] [])) = false ∧
  stepBackward (exec dispose (afterA [] []))
    = (Throw (ThrownString shutDownMessage), exec dispose (afterA [] [])) ∧
  running (foldl (λ s op, snd (perform op s)) (exec dispose (afterA [] []))
             [OpInitialize 7; OpStepForward 10 parser false]) = false.
Proof.
  split; [by vm_compute|].
  destruct (disposed_is_final (exec dispose (afterA [] [])) ltac:(by vm_compute))
    as (_ & Hback & _ & _ & _ & Hops).
  split; [exact Hback|].
  exact (Hops [OpInitialize 7; OpStepForward 10 parser false]).
Defined.


End Scenarios.

(** ** Goals, queries and the life cycle *)

Section GoalFacts.

Context {B : Type} `{!CoqTop B} {Rich : Type} `{!CoqTopGoal B Rich}.

Lemma decides_ret {C} (y : C) (P : CoqStateMachine B → C → Prop) :
  (∀ st, P st y) → decides (ret y) true P.
Proof. intros Hy st. by exists y. Qed.

Lemma decides_bind {A C} (m : @M B A) (k : A → @M B C) ok1 ok2 P Q :
  decides m ok1 P →
  (∀ a, decides (k a) ok2 (Q a)) →
  decides (bind m k) (ok1 && ok2) (λ st c, ∃ a, P st a ∧ Q a st c).
Proof.
  intros Hm Hk st. specialize (Hm st). unfold bind. destruct ok1; simpl.
  - destruct Hm as (a & -> & Ha). specialize (Hk a st). destruct ok2.
    + destruct Hk as (c & -> & Hc). exists c. split; [done|]. by exists a.
    + done.
  - by rewrite Hm.
Qed.

Lemma decides_weaken {C} (m : @M B C) ok ok' (P Q : CoqStateMachine B → C → Prop) :
  ok = ok' → (∀ st c, P st c → Q st c) → decides m ok P → decides m ok' Q.
Proof.
  intros <- HPQ Hm st. specialize (Hm st). destruct ok; [|done].
  destruct Hm as (y & -> & Hy). exists y. auto.
Qed.

Lemma decides_arrayMap {A C} (f : A → @M B C) (ok : A → bool) (P : A → C → Prop) l :
  (∀ x, decides (f x) (ok x) (λ _, P x)) →
  decides (B:=B) (arrayMap f l) (forallb ok l) (λ _, Forall2 P l).
Proof.
  intros Hf. induction l as [|x l IH]; simpl.
  - apply decides_ret. constructor.
  - eapply decides_weaken; [| |eapply decides_bind; [apply Hf|]].
    3: { intros y. eapply decides_bind; [apply IH|].
         intros ys. apply (decides_ret _ (λ _ r, r = y :: ys)). reflexivity. }
    + by rewrite andb_true_r.
    + intros st r (y & Hy & ys & Hys & ->). by constructor.
Qed.

(** *** Splitting and trimming *)

Lemma hasColon_cons (c : Ascii.ascii) (s : string) :
  hasColon (String c s) = Ascii.eqb c ":" || hasColon s.
Proof. reflexivity. Qed.

Lemma splitRelation_cons (c : Ascii.ascii) (s : string) :
  splitRelation (String c s) =
    if Ascii.eqb c ":"
    then match s with
         | String "=" rest' => Some (EmptyString, ":=", rest')
         | _ => Some (EmptyString, ":", s)
         end
    else match splitRelation s with
         | Some (before, relation, after) => Some (String c before, relation, after)
         | None => None
         end.
Proof. reflexivity. Qed.

Lemma splitRelation_colon (s : string) :
  splitRelation (String ":" s) = Some (EmptyString, ":=", match s with String _ r => r | _ => s end)
    ∧ (∃ r, s = String "=" r)
  ∨ splitRelation (String ":" s) = Some (EmptyString, ":", s) ∧ (∀ r, s ≠ String "=" r).
Proof.
  destruct s as [|c' s']; [by right|].
  destruct (Ascii.ascii_dec c' "=") as [->|Hne].
  - left. split; [done|]. by exists s'.
  - right. split; [|by intros r [= ? ?]].
    rewrite splitRelation_cons. simpl.
    destruct c' as [[] [] [] [] [] [] [] []]; done.
Qed.

Lemma splitRelation_None (s : string) :
  splitRelation s = None ↔ hasColon s = false.
Proof.
  induction s as [|c s IH]; [done|].
  rewrite hasColon_cons. destruct (Ascii.eqb c ":") eqn:Hc.
  - apply Ascii.eqb_eq in Hc as ->. split; [|done].
    by destruct (splitRelation_colon s) as [[-> _]|[-> _]].
  - rewrite splitRelation_cons, Hc. simpl. rewrite <- IH.
    destruct (splitRelation s) as [[[? ?] ?]|]; split; done.
Qed.

Lemma splitRelation_Some (s before relation after : string) :
  splitRelation s = Some (before, relation, after) →
  s = before +:+ relation +:+ after ∧
  hasColon before = false ∧
  (relation = ":" ∧ (∀ rest, after ≠ String "=" rest) ∨ relation = ":=").
Proof.
  revert before. induction s as [|c s IH]; intros before; [done|].
  destruct (Ascii.eqb c ":") eqn:Hc.
  - apply Ascii.eqb_eq in Hc as ->.
    destruct (splitRelation_colon s) as [[-> [r ->]]|[-> Hne]].
    + intros [= <- <- <-]. split; [done|]. split; [done|]. by right.
    + intros [= <- <- <-]. split; [done|]. split; [done|]. by left.
  - rewrite splitRelation_cons, Hc.
    destruct (splitRelation s) as [[[b r] a]|]; [|done].
    intros [= <- <- <-]. destruct (IH b eq_refl) as (-> & Hb & Hr).
    split; [done|]. split; [|done]. by rewrite hasColon_cons, Hc.
Qed.

Lemma hasColon_trimStart (s : string) : hasColon s = false → hasColon (trimStart s) = false.
Proof.
  induction s as [|c s IH]; [done|]. rewrite hasColon_cons.
  intros [Hc Hs]%orb_false_elim. simpl. destruct (isWhiteSpace c); [by apply IH|].
  by rewrite hasColon_cons, Hc, Hs.
Qed.

Lemma hasColon_trimEnd (s : string) : hasColon s = false → hasColon (trimEnd s) = false.
Proof.
  induction s as [|c s IH]; [done|]. rewrite hasColon_cons.
  intros [Hc Hs]%orb_false_elim. specialize (IH Hs). simpl.
  destruct (trimEnd s) as [|c' s'].
  - destruct (isWhiteSpace c); [done|]. by rewrite hasColon_cons, Hc.
  - by rewrite hasColon_cons, Hc, IH.
Qed.

Lemma hasColon_trim (s : string) : hasColon s = false → hasColon (trim s) = false.
Proof. intros Hs. by apply hasColon_trimEnd, hasColon_trimStart. Qed.

Lemma trimStart_black (s : string) : startsBlack (trimStart s).
Proof.
  induction s as [|c s IH]; simpl; [done|].
  by destruct (isWhiteSpace c) eqn:Hc.
Qed.

Lemma trimStart_id (s : string) : startsBlack s → trimStart s = s.
Proof. destruct s as [|c s]; simpl; [done|]. by intros ->. Qed.

Lemma trimEnd_black (s : string) : startsBlack s → startsBlack (trimEnd s).
Proof.
  destruct s as [|c s]; simpl; [done|]. intros Hc.
  destruct (trimEnd s); simpl; [by rewrite Hc|done].
Qed.

Lemma trimEnd_trimEnd (s : string) : trimEnd (trimEnd s) = trimEnd s.
Proof.
  induction s as [|c s IH]; simpl; [done|].
  destruct (trimEnd s) as [|c' s'] eqn:Hs.
  - destruct (isWhiteSpace c) eqn:Hc; simpl; [done|]. by rewrite Hc.
  - simpl in *. by rewrite IH.
Qed.

Lemma trim_trim (s : string) : trim (trim s) = trim s.
Proof.
  unfold trim. rewrite (trimStart_id (trimEnd _)).
  - apply trimEnd_trimEnd.
  - apply trimEnd_black, trimStart_black.
Qed.


(** *** Converting goals *)

Lemma trim_relation (relation : string) :
  relation = ":" ∨ relation = ":=" → trim relation = relation.
Proof. by intros [-> | ->]. Qed.

(** X11: a hypothesis is split at its first colon: the identifier is the
    trimmed text before it (which has no colon and no white space around
    it), the relation is [:=] when an equals sign follows the colon and [:]
    otherwise, and the expression is the trimmed rest of the text, or the
    first child of a pretty-printed hypothesis; the state is left alone. *)
Theorem convertHypothesis_relation (hyp : coqProto.Hypothesis_ Rich)
    (hyp' : proto.Hypothesis_ Rich) (st st' : CoqStateMachine B) :
  convertHypothesis hyp st = (Ok hyp', st') →
  st' = st ∧
  ∃ before after,
    hypothesisText hyp = before +:+ proto.relation hyp' +:+ after ∧
    hasColon before = false ∧
    (proto.relation hyp' = ":" ∧ (∀ rest, after ≠ String "=" rest)
     ∨ proto.relation hyp' = ":=") ∧
    proto.identifier hyp' = trim before ∧
    hasColon (proto.identifier hyp') = false ∧
    trim (proto.identifier hyp') = proto.identifier hyp' ∧
    proto.expression hyp' =
      match hyp with
      | coqProto.PlainText _ => proto.Text (trim after)
      | coqProto.RichPP _ children => proto.FirstChild (head children)
      end.
Proof.
  intros Hrun.
  assert (∃ before relation after,
            splitRelation (hypothesisText hyp) = Some (before, relation, after) ∧
            st' = st ∧
            hyp' = proto.mkHypothesis (trim before) (trim relation)
                     match hyp with
                     | coqProto.PlainText _ => proto.Text (trim after)
                     | coqProto.RichPP _ children => proto.FirstChild (head children)
                     end) as (before & relation & after & Hsplit & -> & ->).
  { destruct hyp as [text|text children]; simpl in *;
      destruct (splitRelation text) as [[[b r] a]|]; try done;
      injection Hrun as <- <-; by exists b, r, a. }
  split; [done|].
  apply splitRelation_Some in Hsplit as (Htext & Hbefore & Hrel).
  assert (trim relation = relation) as Htrim.
  { apply trim_relation. destruct Hrel as [[-> _]| ->]; auto. }
  exists before, after. cbn [proto.relation proto.identifier proto.expression].
  rewrite Htrim. split; [done|]. split; [done|]. split; [done|]. split; [done|].
  split; [by apply hasColon_trim|]. split; [apply trim_trim | done].
Qed.

Lemma decides_convertHypothesis (hyp : coqProto.Hypothesis_ Rich) :
  decides (B:=B) (convertHypothesis hyp) (hasColon (hypothesisText hyp)) (λ _ _, True).
Proof.
  intros st. destruct (hasColon (hypothesisText hyp)) eqn:Hc.
  - destruct (splitRelation (hypothesisText hyp)) as [[[b r] a]|] eqn:Hs.
    + destruct hyp as [text|text children]; simpl in *; rewrite Hs; by eexists.
    + apply splitRelation_None in Hs. congruence.
  - apply splitRelation_None in Hc.
    destruct hyp as [text|text children]; simpl in *; by rewrite Hc.
Qed.

Lemma decides_convertGoal (goal : coqProto.Goal_ Rich) :
  decides (B:=B) (convertGoal goal) (goalHasRelations goal)
    (λ _ goal', outlineAfter goal' = outlineBefore goal).
Proof.
  unfold convertGoal, goalHasRelations.
  eapply decides_weaken; [| |eapply decides_bind].
  3: { apply (decides_arrayMap _ (λ hyp, hasColon (hypothesisText hyp)) (λ _ _, True)).
       apply decides_convertHypothesis. }
  3: { intros hyps.
       apply (decides_ret _ (λ _ r, r = proto.mkGoal (coqProto.goal goal) hyps)).
       reflexivity. }
  - by rewrite andb_true_r.
  - intros st goal' (hyps & Hhyps & ->). unfold outlineAfter, outlineBefore. simpl.
    by rewrite (Forall2_length _ _ _ Hhyps).
Qed.

Lemma decides_convertGoal_list (l : list (coqProto.Goal_ Rich)) :
  decides (B:=B) (arrayMap convertGoal l) (forallb goalHasRelations l)
    (λ _ l', outlineAfter <$> l' = outlineBefore <$> l).
Proof.
  eapply decides_weaken; [reflexivity| |apply decides_arrayMap, decides_convertGoal].
  intros st l' Hl'. simpl in Hl'. induction Hl' as [|g g' l0 l0' Hg Hl IH]; [done|].
  rewrite !fmap_cons. by f_equal.
Qed.

Lemma decides_convertStack (stack : coqProto.UnfocusedGoalStack Rich) :
  decides (B:=B) (convertStack stack) (stackHasRelations stack) (λ _ _, True).
Proof.
  revert stack. fix IH 1. intros [before next after]. simpl.
  eapply decides_weaken; [| |eapply decides_bind].
  3: apply decides_convertGoal_list.
  3: { intros before'. eapply decides_bind.
       - instantiate (1 := λ _ _, True).
         instantiate (1 := match next with Some s => stackHasRelations s | None => true end).
         destruct next as [stack'|].
         + eapply decides_weaken; [| |eapply decides_bind; [apply IH|]].
           3: { intros stack''. apply (decides_ret _ (λ _ _, True)). done. }
           * by rewrite andb_true_r.
           * done.
         + by apply decides_ret.
       - intros next'. eapply decides_bind; [apply decides_convertGoal_list|].
         intros after'. apply (decides_ret _ (λ _ _, True)). done. }
  - by rewrite andb_true_r, andb_assoc.
  - done.
Qed.

Lemma decides_convertOptionalGoals (goals : option (list (coqProto.Goal_ Rich))) :
  decides (B:=B) (convertOptionalGoals goals)
    (from_option (forallb goalHasRelations) true goals)
    (λ _ goals', outlinesAfter goals' = outlinesBefore goals).
Proof.
  destruct goals as [l|]; simpl.
  - eapply decides_weaken; [| |eapply decides_bind; [apply decides_convertGoal_list|]].
    3: { intros l'. apply (decides_ret _ (λ _ r, r = Some l')). reflexivity. }
    + by rewrite andb_true_r.
    + intros st r (l' & Hl' & ->). simpl. by rewrite Hl'.
  - by apply decides_ret.
Qed.

Lemma decides_convertUnfocusedGoals (stack : option (coqProto.UnfocusedGoalStack Rich)) :
  decides (B:=B) (convertUnfocusedGoals stack) (from_option stackHasRelations true stack)
    (λ _ stack', is_Some stack' ↔ is_Some stack).
Proof.
  destruct stack as [s|]; simpl.
  - eapply decides_weaken; [| |eapply decides_bind; [apply decides_convertStack|]].
    3: { intros s'. apply (decides_ret _ (λ _ r, r = Some s')). reflexivity. }
    + by rewrite andb_true_r.
    + intros st r (s' & _ & ->). split; by eexists.
  - by apply decides_ret.
Qed.

Lemma decides_getFocusedPosition :
  decides (B:=B) (getFocusedPosition (B:=B)) true (λ st p, getFocusedPosition st = (Ok p, st)).
Proof.
  intros st. unfold getFocusedPosition, bind, gets, ret.
  destruct (focusedSentence st); by eexists.
Qed.

Lemma decides_convertGoals (result : coqProto.GoalResult Rich) :
  decides (B:=B) (convertGoals result) (answerHasRelations result) (λ st r, converted st result r).
Proof.
  unfold convertGoals, answerHasRelations.
  eapply decides_weaken; [| |eapply decides_bind; [apply decides_convertOptionalGoals|]].
  3: { intros g. eapply decides_bind; [apply decides_convertUnfocusedGoals|].
       intros b. eapply decides_bind; [apply decides_convertOptionalGoals|].
       intros s. eapply decides_bind; [apply decides_convertOptionalGoals|].
       intros a. eapply decides_bind; [apply decides_getFocusedPosition|].
       intros p. apply (decides_ret _ (λ _ r, r = proto.mkCoqTopGoalResult g b s a (Some p))).
       reflexivity. }
  - by rewrite !andb_true_r, !andb_assoc.
  - intros st r (g & Hg & b & Hb & s & Hs & a & Ha & p & Hp & ->).
    unfold converted. simpl. repeat split; try done; try apply Hb.
    exists p. by rewrite Hp.
Qed.


(** X10: [getGoal] never throws and changes nothing but the backend.  When
    the machine is not running or the backend is not, or when the backend
    rejects the request, or when some hypothesis of the answer has no colon,
    the result is the empty object; otherwise it holds the goals of the
    answer (texts and numbers of hypotheses unchanged, in order) and the
    focused position. *)
Theorem getGoal_spec (st : CoqStateMachine B) :
  (running st && top_isRunning (coqtop st) = false →
     getGoal st = (Ok proto.empty, st)) ∧
  (running st && top_isRunning (coqtop st) = true →
     ∀ answer top',
       top_coqGoal (coqtop st) = (answer, top') →
       ∃ r,
         getGoal st = (Ok r, set_coqtop top' st) ∧
         match answer with
         | inl _ => r = proto.empty
         | inr result =>
             if answerHasRelations result then converted st result r
             else r = proto.empty
         end).
Proof.
  split.
  - intros Hready. unfold getGoal, isCoqReady, bind, gets, ret. by rewrite Hready.
  - intros Hready answer top' Htop.
    unfold getGoal, isCoqReady. unfold bind at 1. unfold bind at 1, gets at 1.
    unfold bind at 1, gets at 1. unfold ret at 1. rewrite Hready. simpl.
    unfold tryCatch. unfold bind at 1, awaitGoal. unfold bind at 1, gets at 1.
    rewrite Htop. unfold bind at 1, modify at 1.
    destruct answer as [rejection|result].
    + exists proto.empty. done.
    + unfold ret at 1. pose proof (decides_convertGoals result (set_coqtop top' st)) as Hc.
      destruct (answerHasRelations result).
      * destruct Hc as (r & -> & Hr). exists r. split; [done|].
        destruct Hr as (? & ? & ? & ? & p & Hp & ?).
        repeat split; try done; try tauto. exists p. split; [|done].
        rewrite <- Hp. unfold getFocusedPosition, bind, gets, ret. simpl.
        by destruct (focusedSentence st).
      * rewrite Hc. by exists proto.empty.
Qed.

End GoalFacts.


(** *** Decomposing a computation along its syntax, for any relation *)

Ltac respects_by refl trans :=
  repeat first
    [ match goal with |- ∀ _, _ => intro end
    | match goal with
      | |- respects _ (ret _) => apply respects_ret; exact refl
      | |- respects _ (throw _) => apply respects_throw; exact refl
      | |- respects _ (gets _) => apply respects_gets; exact refl
      | |- respects _ (bind _ _) => apply respects_bind; [exact trans | | ]
      | |- respects _ (tryCatch _ _) =>
          apply respects_tryCatch; [exact trans | | ]
      | |- respects _ (forEach _ _) => apply respects_forEach; [exact refl | exact trans | ]
      | |- respects _ (modify _) => apply respects_modify
      | |- respects _ (match ?x with _ => _ end) => destruct x
      end ].

Section Queries.

Context {B : Type} `{!CoqTop B} {Rich : Type} `{!CoqTopGoal B Rich}.

Lemma sameDocument_refl (st : CoqStateMachine B) : sameDocument st st.
Proof. by repeat split. Qed.

Lemma sameDocument_trans (a b c : CoqStateMachine B) :
  sameDocument a b → sameDocument b c → sameDocument a c.
Proof.
  unfold sameDocument. intros H1 H2.
  destruct H1 as (?&?&?&?&?&?&?&?&?&?), H2 as (?&?&?&?&?&?&?&?&?&?).
  repeat split; congruence.
Qed.

Ltac frame := respects_by sameDocument_refl sameDocument_trans;
              try solve [intros; by repeat split].

Lemma await_sameDocument {X} e (request : B → (Rejection + X) * B) :
  respects sameDocument (await e request).
Proof. unfold await, emit. frame. Qed.

Lemma isCoqReady_sameDocument : respects sameDocument (isCoqReady (B:=B)).
Proof. unfold isCoqReady. frame. Qed.

Lemma decides_sameDocument {C} (m : @M B C) ok P :
  decides m ok P → respects sameDocument m.
Proof.
  intros Hm st. specialize (Hm st). destruct ok.
  - destruct Hm as (y & -> & _). apply sameDocument_refl.
  - rewrite Hm. apply sameDocument_refl.
Qed.

Lemma getParentSentence_sameDocument p : respects sameDocument (getParentSentence (B:=B) p).
Proof. unfold getParentSentence, deref. frame. Qed.

Lemma validateState_ready (st : CoqStateMachine B) :
  running st = true → top_isRunning (coqtop st) = true →
  validateState true st = (Ok true, st).
Proof. intros Hr Ht. unfold validateState, bind, gets, ret. by rewrite Hr, Ht. Qed.

(** X9: the requests that only consult the backend leave the document
    alone: [interrupt], [setWrappingWidth], [requestLtacProfResults],
    [getGoal] and the message feedback change neither the version, nor the
    tree, the index, the focus, the last sentence or the buffer, whatever
    the backend answers and whether or not they throw; the same holds for
    [doQuery] unless it has to initialise the machine first. *)
Theorem queries_keep_document (st : CoqStateMachine B) :
  sameDocument st (snd (interrupt st)) ∧
  (∀ columns, sameDocument st (snd (setWrappingWidth columns st))) ∧
  (∀ position, sameDocument st (snd (requestLtacProfResults position st))) ∧
  sameDocument st (snd (getGoal st)) ∧
  (∀ level message, sameDocument st (snd (onCoqMessage level message st))) ∧
  (∀ query position,
     running st = false ∨ top_isRunning (coqtop st) = true →
     sameDocument st (snd (doQuery query position st))).
Proof.
  repeat match goal with |- _ ∧ _ => split end.
  - apply await_sameDocument.
  - intros columns. revert st. unfold setWrappingWidth.
    apply respects_bind; [exact sameDocument_trans | apply isCoqReady_sameDocument|].
    unfold emit. frame.
  - intros position. revert st. unfold requestLtacProfResults.
    apply respects_bind; [exact sameDocument_trans | apply isCoqReady_sameDocument|].
    intros ready. destruct (negb ready); [frame|]. destruct position as [pos|].
    + apply respects_bind; [exact sameDocument_trans | |intros sent].
      { unfold getSentence, deref. frame. }
      apply respects_bind; [exact sameDocument_trans | frame | intros h].
      apply await_sameDocument.
    + apply await_sameDocument.
  - revert st. unfold getGoal.
    apply respects_bind; [exact sameDocument_trans | apply isCoqReady_sameDocument|].
    intros ready. destruct (negb ready); [frame|].
    apply respects_tryCatch; [exact sameDocument_trans | | frame].
    apply respects_bind; [exact sameDocument_trans | |].
    + unfold awaitGoal. frame.
    + intros result. eapply decides_sameDocument, decides_convertGoals.
  - intros level message. revert st.
    change (respects sameDocument (onCoqMessage (B:=B) level message)).
    unfold onCoqMessage, callback, emit. frame.
  - intros query position Hready. unfold doQuery. unfold bind at 1.
    assert (respects sameDocument
              (state <- match position with
                        | Some pos =>
                            p <- getParentSentence pos ;;
                            s <- deref p ;;
                            h <- gets heap ;;
                            ret (Some (Sentence.getStateId h s))
                        | None => ret None
                        end ;;
               await (CoqQuery query state) (top_coqQuery query state))) as Hrest.
    { apply respects_bind; [exact sameDocument_trans | |].
      - destruct position as [pos|]; [|frame].
        apply respects_bind;
          [exact sameDocument_trans | apply getParentSentence_sameDocument|].
        unfold deref. frame.
      - intros state. apply await_sameDocument. }
    destruct (running st) eqn:Hr.
    + destruct Hready as [|Ht]; [done|].
      rewrite validateState_ready by done. apply Hrest.
    + rewrite validateState_dead_throws by done. apply sameDocument_refl.
Qed.

End Queries.

Section Lifecycle.

Context {B : Type} `{!CoqTop B}.

Lemma perform_all_inSync (ops : list Operation) (st : CoqStateMachine B) :
  inSync st → inSync (foldl (λ s op, snd (perform op s)) st ops).
Proof.
  revert st. induction ops as [|op ops IH]; intros st Hs; [done|].
  simpl. apply IH. by apply perform_steady.
Qed.

Lemma perform_all_rooted (ops : list Operation) (st : CoqStateMachine B) :
  is_Some (root st) → is_Some (root (foldl (λ s op, snd (perform op s)) st ops)).
Proof.
  revert st. induction ops as [|op ops IH]; intros st Hs; [done|].
  simpl. apply IH. by apply perform_steady.
Qed.

Lemma dispose_inSync (st : CoqStateMachine B) :
  inSync st →
  dispose st =
    (Ok (),
     mkSTM (version st) (root st) None None (lastSentence st) (top_dispose (coqtop st))
       None false false false (heap st)
       (trace st ++
          (if running st
           then [ConsoleWarn "The STM manager is being disposed before being shut down"]
           else []) ++ [CoqTopDispose])).
Proof.
  intros [Hc Hk]. destruct st as [? ? ? ? ? ? ? run cb co ? ?]; simpl in *; subst.
  unfold dispose, consoleWarn, emit, bind, gets, modify, ret. simpl.
  destruct run; simpl; by rewrite <- ?app_assoc.
Qed.

(** X6: [dispose] can be called at any time and any number of times: in
    every state that a new machine can reach it returns normally and leaves
    the machine stopped, without index, buffer and focus; it keeps the root,
    the last sentence and the sentence objects, disposes the backend every
    time, and warns on the console exactly when the machine was still
    running. *)
Theorem dispose_reachable (top : B) (ops : list Operation) :
  let st := foldl (λ s op, snd (perform op s)) (newMachine top) ops in
  ∃ st',
    dispose st = (Ok (), st') ∧
    running st' = false ∧ sentences st' = None ∧ bufferedFeedback st' = None ∧
    focusedSentence st' = None ∧
    root st' = root st ∧ lastSentence st' = lastSentence st ∧ heap st' = heap st ∧
    coqtop st' = top_dispose (coqtop st) ∧
    trace st' =
      trace st ++
        (if running st
         then [ConsoleWarn "The STM manager is being disposed before being shut down"]
         else []) ++ [CoqTopDispose].
Proof.
  intros st.
  assert (inSync st) as Hs by (apply perform_all_inSync; by split).
  rewrite (dispose_inSync st Hs). eexists. split; [reflexivity|]. by repeat split.
Qed.

(** X7: [shutdown] does nothing on a stopped machine; on a live machine it
    asks the backend to quit and then disposes the machine, so that a second
    [shutdown] does nothing; but when the backend rejects the quit request,
    the rejection is thrown and the machine is left running, not disposed. *)
Theorem shutdown_spec (st : CoqStateMachine B) :
  (running st = false → shutdown st = (Ok (), st)) ∧
  (alive st →
   ∀ top', top_coqQuit (coqtop st) = (inr (), top') →
     shutdown st = (Ok (), disposed (requested CoqQuit top' st)) ∧
     shutdown (disposed (requested CoqQuit top' st))
       = (Ok (), disposed (requested CoqQuit top' st))) ∧
  (running st = true →
   ∀ rejection top', top_coqQuit (coqtop st) = (inl rejection, top') →
     shutdown st = (Throw (exnOfRejection rejection), requested CoqQuit top' st) ∧
     running (requested CoqQuit top' st) = true ∧
     sentences (requested CoqQuit top' st) = sentences st).
Proof.
  split; [|split].
  - intros Hr. unfold shutdown, bind, gets. by rewrite Hr.
  - intros Ha top' Hquit. pose proof Ha as (Hr & Hc & Hk). split; [|done].
    unfold shutdown. unfold bind at 1, gets at 1. rewrite Hr. simpl.
    unfold bind at 1, await. unfold bind at 1, emit, modify.
    unfold bind at 1, gets at 1. cbn [coqtop set_trace]. rewrite Hquit.
    unfold bind at 1. unfold ret at 1.
    fold (requested CoqQuit top' st).
    by rewrite dispose_alive by (by destruct st).
  - intros Hr rejection top' Hquit. split; [|done].
    unfold shutdown. unfold bind at 1, gets at 1. rewrite Hr. simpl.
    unfold bind at 1, await. unfold bind at 1, emit, modify.
    unfold bind at 1, gets at 1. cbn [coqtop set_trace]. rewrite Hquit.
    reflexivity.
Qed.

(** X8: a disposed machine ignores [shutdown], [applyChanges],
    [setWrappingWidth], [requestLtacProfResults] and the closing of the
    backend; but the backend feedback that still arrives is not ignored: a
    status update and a message each end in a [TypeError], since the index
    and the callbacks are gone. *)
Theorem events_after_dispose (st : CoqStateMachine B) :
  inSync st →
  let st' := snd (dispose st) in
  shutdown st' = (Ok (), st') ∧
  (∀ changes newVersion, applyChanges changes newVersion st' = (Ok (), st')) ∧
  (∀ columns, setWrappingWidth columns st' = (Ok (), st')) ∧
  (∀ position, requestLtacProfResults position st' = (Ok (), st')) ∧
  (∀ error, onCoqClosed error st' = (Ok (), st')) ∧
  (∀ id route status worker,
     onCoqStateStatusUpdate id route status worker st' = (Throw TypeError, st')) ∧
  (∀ level message, onCoqMessage level message st' = (Throw TypeError, st')).
Proof.
  intros Hs st'. subst st'. rewrite (dispose_inSync st Hs). cbn [snd].
  repeat match goal with |- _ ∧ _ => split end; try done.
  intros error. unfold onCoqClosed, bind, gets. cbn [running]. by rewrite orb_true_r.
Qed.

(** X3: the machine is initialised at most once: once there is a root,
    every further [initialize] throws, whatever has happened in between,
    and changes nothing. *)
Theorem initialize_once (st : CoqStateMachine B) (ops : list Operation) (id : StateId) :
  is_Some (root st) →
  let st' := foldl (λ s op, snd (perform op s)) st ops in
  initialize id st' = (Throw (ThrownString "STM is already initialized."), st').
Proof.
  intros Hroot st'. assert (is_Some (root st')) as Hroot' by by apply perform_all_rooted.
  unfold initialize, bind, gets. by rewrite bool_decide_eq_true_2.
Qed.

End Lifecycle.

Section Stepping.

Context {B : Type} `{!CoqTop B}.

Lemma getFocusedPosition_focusPosition (st : CoqStateMachine B) :
  getFocusedPosition st = (Ok (focusPosition st), st).
Proof.
  unfold focusPosition, getFocusedPosition, bind, gets, ret.
  by destruct (focusedSentence st).
Qed.

Lemma advanceLoop_stops fuel cond cs verbose endPos contiguous nextCommand it
    (st : CoqStateMachine B) :
  (∀ c, nextCommand = Some c → cond c contiguous = false) →
  advanceLoop fuel cond cs verbose endPos contiguous nextCommand it st = (Ok (), st).
Proof.
  intros Hc. destruct fuel as [|fuel], nextCommand as [c|]; try done.
  simpl. by rewrite (Hc c eq_refl).
Qed.

(** X13: [stepForward] does nothing (and asks the backend nothing) when
    the parser has no command that starts at the focused position. *)
Theorem stepForward_idle (st : CoqStateMachine B) fuel (cs : CommandIterator) verbose :
  running st = true →
  top_isRunning (coqtop st) = true →
  (∀ c, head (cs (focusPosition st) None) = Some c →
        positionIsEqual (start (range c)) (focusPosition st) = false) →
  stepForward fuel cs verbose st = (Ok (), st).
Proof.
  intros Hr Ht Hc. unfold stepForward. unfold bind at 1.
  rewrite validateState_ready by done.
  unfold bind at 1. rewrite getFocusedPosition_focusPosition.
  unfold iterateAdvanceFocus. unfold bind at 1. rewrite getFocusedPosition_focusPosition.
  destruct (cs (focusPosition st) None) as [|c rest] eqn:Hcs; simpl.
  - by apply advanceLoop_stops.
  - apply advanceLoop_stops. intros c' [= <-]. by apply Hc.
Qed.

(** X14: [stepForward] adds exactly the command that starts at the focused
    position: it is one [addCommand] (after the two lines logged on the
    console), whose exception it passes on, provided the parser's next
    command does not start at the same position. *)
Theorem stepForward_one (st : CoqStateMachine B) fuel (cs : CommandIterator) verbose
    (c : Command) (rest : list Command) :
  running st = true →
  console st = true →
  top_isRunning (coqtop st) = true →
  cs (focusPosition st) None = c :: rest →
  positionIsEqual (start (range c)) (focusPosition st) = true →
  (∀ c', head rest = Some c' →
         positionIsEqual (start (range c')) (focusPosition st) = false) →
  stepForward (S fuel) cs verbose st =
    match addCommand c verbose
            (set_trace (trace st ++ [ConsoleLog "1"; ConsoleLog "2"]) st) with
    | (Ok _, st') => (Ok (), st')
    | (Throw e, st') => (Throw e, st')
    end.
Proof.
  intros Hr Hk Ht Hcs Hc Hnext. unfold stepForward. unfold bind at 1.
  rewrite validateState_ready by done.
  unfold bind at 1. rewrite getFocusedPosition_focusPosition.
  unfold iterateAdvanceFocus. unfold bind at 1. rewrite getFocusedPosition_focusPosition.
  rewrite Hcs. cbn [next advanceLoop]. rewrite Hc. cbn [negb].
  unfold bind at 1, consoleLog at 1. unfold bind at 1, gets at 1. rewrite Hk.
  unfold emit at 1, modify at 1.
  assert (next rest = (head rest, tail rest)) as -> by by destruct rest.
  unfold bind at 1, consoleLog at 1. unfold bind at 1, gets at 1. cbn [console set_trace].
  rewrite Hk. unfold emit at 1, modify at 1. cbn [trace set_trace].
  rewrite <- app_assoc. cbn [app].
  assert (set_trace (trace st ++ [ConsoleLog "1"; ConsoleLog "2"])
            (set_trace (trace st ++ [ConsoleLog "1"]) st)
          = set_trace (trace st ++ [ConsoleLog "1"; ConsoleLog "2"]) st) as -> by done.
  unfold bind at 1.
  destruct (addCommand c verbose _) as [[result|e] st']; [|done].
  destruct (unfocused result).
  - unfold bind. rewrite getFocusedPosition_focusPosition. by apply advanceLoop_stops.
  - by apply advanceLoop_stops.
Qed.

(** X15: [stepBackward] focuses the parent of the focused sentence; at the
    root, which has no parent, it does nothing and asks the backend
    nothing (the [TypeError] of the missing parent is swallowed). *)
Theorem stepBackward_spec (st : CoqStateMachine B) (f : ref) :
  running st = true →
  top_isRunning (coqtop st) = true →
  focusedSentence st = Some f →
  stepBackward st = focusSentence (Sentence.getParent (heap st) f) st ∧
  (Sentence.getParent (heap st) f = None → stepBackward st = (Ok (), st)).
Proof.
  intros Hr Ht Hf.
  assert (stepBackward st = focusSentence (Sentence.getParent (heap st) f) st) as Hstep.
  { unfold stepBackward. unfold bind at 1. rewrite validateState_ready by done.
    unfold bind at 1, gets at 1. rewrite Hf.
    unfold cancelSentence, deref. unfold bind at 1, ret at 1.
    unfold bind at 1, gets at 1. reflexivity. }
  split; [done|]. intros Hp. rewrite Hstep, Hp.
  unfold focusSentence, tryCatch, deref, bind, gets, throw. rewrite Hf.
  by rewrite decide_False.
Qed.

(** X16: [interpretToPoint] to a position that the parser cannot reach
    with a command from the focus adds nothing; if the position lies before
    the focus, it focuses the parent of the first sentence that is not
    before the position, and otherwise it does nothing. *)
Theorem interpretToPoint_back (st : CoqStateMachine B) fuel (position : Position)
    (cs : CommandIterator) :
  running st = true →
  top_isRunning (coqtop st) = true →
  (∀ c, head (cs (focusPosition st) (Some position)) = Some c →
        positionIsAfterOrEqual position (end_ (range c)) = false) →
  interpretToPoint fuel position cs st =
    if positionIsBefore position (focusPosition st)
    then (parent <- getParentSentence position ;; focusSentence parent) st
    else (Ok (), st).
Proof.
  intros Hr Ht Hc. unfold interpretToPoint. unfold bind at 1.
  rewrite validateState_ready by done.
  unfold bind at 1, iterateAdvanceFocus. unfold bind at 1.
  rewrite getFocusedPosition_focusPosition.
  assert (∀ it, (let '(nextCommand, commandIterator) := next it in
                 advanceLoop fuel
                   (λ command _, positionIsAfterOrEqual position (end_ (range command)))
                   cs true (Some position) true nextCommand commandIterator) st
                = advanceLoop fuel
                   (λ command _, positionIsAfterOrEqual position (end_ (range command)))
                   cs true (Some position) true (head it) (tail it) st) as ->
    by (by intros [|? ?]).
  rewrite advanceLoop_stops by (intros c Hhead; by apply Hc).
  unfold bind at 1. rewrite getFocusedPosition_focusPosition.
  by destruct (positionIsBefore position (focusPosition st)).
Qed.

End Stepping.

Section Feedback.

Context {B : Type} `{!CoqTop B}.



End Feedback.

Section Edits.

Context {B : Type} `{!CoqTop B}.

(** X22: the edits are handled as a permutation of the given ones in which
    no edit starts after an earlier one; on that list, the loop that shifts
    edits off the front removes exactly the edits that start at or after the
    end of the sentence, so that none of them is applied to the sentence or
    to any of its ancestors. *)
Theorem sortChanges_shiftWhile (changes : list TextChange) :
  sortChanges changes ≡ₚ changes ∧
  StronglySorted laterFirst (sortChanges changes) ∧
  ∀ sentEnd,
    shiftWhile sentEnd (sortChanges changes)
      = List.filter (startsBefore sentEnd) (sortChanges changes).
Proof.
  destruct (sortChanges_spec changes) as [Hperm Hsorted].
  split; [done|]. split; [done|]. intros sentEnd. by apply shiftWhile_filter.
Qed.

Lemma shiftWhile_all_later sentEnd (l : list TextChange) :
  Forall (λ c, positionIsAfterOrEqual (start (change_range c)) sentEnd = true) l →
  shiftWhile sentEnd l = [].
Proof. induction 1 as [|c l Hc Hl IH]; simpl; [done|]. by rewrite Hc. Qed.

(** X23: edits that all start at or after the end of the last sentence
    touch no sentence and send nothing to the backend: [applyChanges] only
    records the new version. *)
Theorem applyChanges_after_last (st : CoqStateMachine B) changes newVersion (last : ref) :
  running st = true →
  lastSentence st = Some last →
  Forall (λ c, positionIsAfterOrEqual (start (change_range c))
                 (end_ (Sentence.getRange (heap st) last)) = true) changes →
  applyChanges changes newVersion st =
    (Ok (), if length changes =? 0 then st else set_version newVersion st).
Proof.
  intros Hr Hl Hlater. unfold applyChanges. unfold bind at 1, gets at 1. rewrite Hr.
  cbn [negb orb]. destruct (length changes =? 0); [done|].
  unfold bind at 1, tryCatch. unfold bind at 1, gets at 1. rewrite Hl.
  unfold bind at 1, deref, ret at 1. unfold bind at 1, gets at 1.
  assert (ancestorsLoop (length (heap st)) (Some last) (sortChanges changes) st = (Ok (), st))
    as ->; [|done].
  destruct (length (heap st)) as [|fuel]; [done|]. simpl.
  unfold bind at 1, gets at 1. rewrite shiftWhile_all_later; [done|].
  destruct (sortChanges_spec changes) as [Hperm _]. by rewrite Hperm.
Qed.


End Edits.

Section Adding.

Context {B : Type} `{!CoqTop B}.

(** X18: when the backend rejects an add with a string, [addCommand] throws
    an [InconsistentState] with that string, but, unlike the other
    inconsistent-state faults, without calling [coqDied] and without
    disposing the machine: only the request is recorded. *)
Theorem addCommand_rejected_with_string (st : CoqStateMachine B) (command : Command)
    (verbose : bool) (parent : ref) (message : string) top' :
  focusedSentence st = Some parent →
  positionIsEqual (end_ (Sentence.getRange (heap st) parent)) (start (range command)) = true →
  top_coqAddCommand (text command) (version st) (Sentence.getStateId (heap st) parent)
    verbose (coqtop st) = (inl (RejectString message), top') →
  addCommand command verbose st =
    (Throw (InconsistentState message),
     requested (CoqAddCommand (text command) (version st)
                  (Sentence.getStateId (heap st) parent) verbose) top' st).
Proof.
  intros Hf Heq Htop.
  destruct st as [v rt ss fs ls top bf run cb co h tr]; simpl in *; subst fs.
  unfold addCommand, await, emit, deref.
  unfold tryCatch, bind, gets, ret, modify, throw.
  simpl. rewrite Heq. simpl. rewrite Htop. reflexivity.
Qed.


End Adding.

Section Enumerating.

Context {B : Type} `{!CoqTop B}.

(** X12: on a running machine [getSentences] yields the range and status
    of every descendant of the root, in order.  Disposing the machine does
    not end the enumeration: it then yields [undefined] first and the same
    sentences after it.  Without a root the generator throws a
    [TypeError]. *)
Theorem getSentences_spec (st : CoqStateMachine B) :
  (root st = None → snd (getSentences st) = Throw TypeError) ∧
  (∀ rt, root st = Some rt →
     running st = true →
     inSync st →
     getSentences st =
       ((λ sent, Some (Sentence.getRange (heap st) sent, Sentence.getStatus (heap st) sent))
          <$> Sentence.descendants (heap st) rt, Ok ()) ∧
     getSentences (snd (dispose st)) = (None :: fst (getSentences st), Ok ())).
Proof.
  split.
  - intros Hroot. unfold getSentences. by rewrite Hroot.
  - intros rt Hroot Hr Hs.
    assert (getSentences st =
              ((λ sent, Some (Sentence.getRange (heap st) sent,
                              Sentence.getStatus (heap st) sent))
                 <$> Sentence.descendants (heap st) rt, Ok ())) as Hrun.
    { unfold getSentences. by rewrite Hroot, Hr. }
    split; [done|]. rewrite Hrun, (dispose_inSync st Hs). cbn [fst snd].
    unfold getSentences. cbn [running root heap negb]. by rewrite Hroot.
Qed.

End Enumerating.

Section Termination.

Context {B : Type} `{!CoqTop B}.

Lemma bind_Ok {A C} (m : @M B A) (k : A → @M B C) st r st' :
  bind m k st = (Ok r, st') → ∃ a st1, m st = (Ok a, st1) ∧ k a st1 = (Ok r, st').
Proof.
  unfold bind. destruct (m st) as [[a|e] st1]; [|done]. intros Hk. by exists a, st1.
Qed.

Lemma await_Ok {X} e (request : B → (Rejection + X) * B) (st : CoqStateMachine B) x st' :
  await e request st = (Ok x, st') →
  ∃ top', request (coqtop st) = (inr x, top').
Proof.
  unfold await, emit, bind, gets, modify, ret, throw. simpl.
  destruct (request (coqtop st)) as [[r|y] top']; [done|].
  intros [= <- _]. by exists top'.
Qed.

(** An add that succeeds reports [unfocused] only if the backend named an
    unfocused state. *)
Lemma addCommand_unfocused (st : CoqStateMachine B) command verbose result st' :
  neverUnfocuses →
  addCommand command verbose st = (Ok result, st') →
  unfocused result = false.
Proof.
  intros Hnever. unfold addCommand, tryCatch.
  match goal with |- context [bind ?m ?k st] => destruct (bind m k st) as [[r|e] st1] eqn:Hbody end.
  - intros [= <- <-].
    apply bind_Ok in Hbody as (f & s1 & _ & Hbody).
    apply bind_Ok in Hbody as (parent & s2 & _ & Hbody).
    apply bind_Ok in Hbody as (h & s3 & _ & Hbody).
    apply bind_Ok in Hbody as ([] & s4 & _ & Hbody).
    apply bind_Ok in Hbody as (v & s5 & _ & Hbody).
    apply bind_Ok in Hbody as (value & s6 & Hawait & Hbody).
    apply await_Ok in Hawait as (top' & Htop). apply Hnever in Htop.
    apply bind_Ok in Hbody as (h' & s7 & _ & Hbody).
    destruct (Sentence.add parent (text command) (add_stateId value) (range command) h')
      as [newSentence h''].
    repeat (apply bind_Ok in Hbody as (? & ? & _ & Hbody)).
    injection Hbody as <- _. simpl. by rewrite Htop.
  - destruct e as [msg|s|f|msg rg|]; try done.
    unfold bind. by destruct (match truthyStateId (fail_stateId f) with
                              | Some id => gotoErrorFallbackState id
                              | None => ret ()
                              end st1) as [[[]|?] ?].
Qed.

Lemma advanceLoop_fuel cond (cs : CommandIterator) verbose endPos :
  neverUnfocuses →
  ∀ it fuel1 fuel2 contiguous nextCommand (st : CoqStateMachine B),
    length it < fuel1 → length it < fuel2 →
    advanceLoop fuel1 cond cs verbose endPos contiguous nextCommand it st
    = advanceLoop fuel2 cond cs verbose endPos contiguous nextCommand it st.
Proof.
  intros Hnever. induction it as [|c' it IH];
    intros fuel1 fuel2 contiguous nextCommand st H1 H2;
    (destruct fuel1 as [|fuel1]; [simpl in H1; lia|]);
    (destruct fuel2 as [|fuel2]; [simpl in H2; lia|]);
    (destruct nextCommand as [c|]; [|done]); cbn [advanceLoop next];
    (destruct (negb (cond c contiguous)); [done|]);
    apply bind_ext; intros _ s1; apply bind_ext; intros _ s2;
    unfold bind at 1 3;
    destruct (addCommand c verbose s2) as [[result|e] s3] eqn:Hadd; try done;
    rewrite (addCommand_unfocused _ _ _ _ _ Hnever Hadd); cbn [negb].
  - by destruct fuel1, fuel2.
  - apply IH; simpl in *; lia.
Qed.

(** X17: with a backend that never reports an unfocused state, the loop
    that advances the focus ends because the commands of the parser are
    used up or the condition fails, after at most as many iterations as the
    parser produced commands: the outcome is the same for every bound on
    the iterations that is at least that number. *)
Theorem iterateAdvanceFocus_terminates (st : CoqStateMachine B) cond (cs : CommandIterator)
    verbose endPos fuel1 fuel2 :
  neverUnfocuses →
  length (cs (focusPosition st) endPos) ≤ fuel1 →
  length (cs (focusPosition st) endPos) ≤ fuel2 →
  iterateAdvanceFocus fuel1 cond cs verbose endPos st
  = iterateAdvanceFocus fuel2 cond cs verbose endPos st.
Proof.
  intros Hnever H1 H2. unfold iterateAdvanceFocus. unfold bind.
  rewrite getFocusedPosition_focusPosition.
  destruct (cs (focusPosition st) endPos) as [|c it]; simpl in *.
  - by destruct fuel1, fuel2.
  - apply advanceLoop_fuel; [done|lia..].
Qed.

End Termination.

Section Edges.

Context {B : Type} `{!CoqTop B}.

(** X20: when the backend rejects the edit-at, [focusSentence] throws
    nothing.  With a failure that names a (non-zero) fallback state it goes
    to that state; a rejection with a string, or with a failure without
    such a state, is swallowed: only the request has happened, and the
    focus stays where it was. *)
Theorem focusSentence_rejected (st : CoqStateMachine B) (target : ref) rejection top' :
  focusedSentence st ≠ Some target →
  top_coqEditAt (Sentence.getStateId (heap st) target) (coqtop st) = (inl rejection, top') →
  let st1 := requested (CoqEditAt (Sentence.getStateId (heap st) target)) top' st in
  focusSentence (Some target) st =
    match errorStateId (exnOfRejection rejection) with
    | Some id => gotoErrorFallbackState id st1
    | None => (Ok (), st1)
    end.
Proof.
  intros Hf Htop st1. subst st1. unfold focusSentence. unfold bind at 1, gets at 1.
  rewrite decide_False by congruence.
  unfold tryCatch, await, emit, deref. unfold bind at 1, ret at 1.
  unfold bind at 1, gets at 1. unfold bind at 1. unfold bind at 1. unfold bind at 1.
  unfold modify at 1. unfold bind at 1, gets at 1. cbn [coqtop set_trace]. rewrite Htop.
  unfold bind at 1, modify at 1. unfold throw at 1. unfold requested.
  by destruct (errorStateId (exnOfRejection rejection)).
Qed.

(** X2: [validateState(true)] on a running machine whose backend is not
    running resets the backend.  If the reset is rejected, the rejection is
    thrown and the machine is as before; if it is accepted although the
    machine has a root already, the string "STM is already initialized." is
    thrown, after the backend has been reset. *)
Theorem validateState_restart (st : CoqStateMachine B) answer top' :
  running st = true →
  top_isRunning (coqtop st) = false →
  top_resetCoq (coqtop st) = (answer, top') →
  match answer with
  | inl rejection =>
      validateState true st = (Throw (exnOfRejection rejection), requested ResetCoq top' st)
  | inr id =>
      is_Some (root st) →
      validateState true st =
        (Throw (ThrownString "STM is already initialized."), requested ResetCoq top' st)
  end.
Proof.
  intros Hr Ht Hreset.
  unfold validateState, await, initialize, emit, bind, gets, modify, ret, throw, requested.
  simpl. rewrite Hr, Ht. simpl. rewrite Hreset.
  destruct answer as [rejection|id]; [done|].
  intros [rt Hroot]. simpl. by rewrite Hroot.
Qed.

End Edges.

Section Lookups.

Context {B : Type} `{!CoqTop B}.



End Lookups.

Section Stale.

Context {B : Type} `{!CoqTop B}.

Lemma addCommand_off_focus_dies (st : CoqStateMachine B) (command : Command)
    (verbose : bool) (parent : ref) :
  alive st →
  focusedSentence st = Some parent →
  positionIsEqual (end_ (Sentence.getRange (heap st) parent)) (start (range command)) = false →
  addCommand command verbose st =
    (Throw (InconsistentState offFocus), died (ThrownString offFocus) st).
Proof.
  intros (Hr & Hc & Hk) Hf Hne. destruct st; simpl in *; subst.
  unfold addCommand, tryCatch, bind, gets, deref, ret, throwInconsistentState,
    callback, emit, modify, dispose, consoleWarn, throw; simpl.
  rewrite Hne. simpl. unfold died, disposed. simpl. by rewrite <- !app_assoc.
Qed.

Lemma consoleLog_twice (st : CoqStateMachine B) {A} (k : @M B A) :
  console st = true →
  (consoleLog "1" ;; consoleLog "2" ;; k) st = k (logged st).
Proof.
  intros Hk. unfold bind at 1, consoleLog at 1. unfold bind at 1, gets at 1. rewrite Hk.
  unfold emit at 1, modify at 1.
  unfold bind at 1, consoleLog at 1. unfold bind at 1, gets at 1. cbn [console set_trace].
  rewrite Hk. unfold emit at 1, modify at 1. cbn [trace set_trace].
  rewrite <- app_assoc. reflexivity.
Qed.

(** X26: the command that the loop has fetched before an add is the next
    one it adds, also when that add reports an unfocused state and the
    parser is restarted at the new focus.  When that command satisfies the
    condition but does not start at the end of the newly focused sentence,
    its add is an inconsistent-state fault: [coqDied] is called, the machine
    is disposed and [InconsistentState] is thrown. *)
Theorem iterateAdvanceFocus_stale_command (st st2 : CoqStateMachine B) fuel cond
    (cs : CommandIterator) verbose endPos (c c2 : Command) (rest : list Command)
    (result : AddResult) (f : ref) :
  console st = true →
  cs (focusPosition st) endPos = c :: c2 :: rest →
  cond c true = true →
  addCommand c verbose (logged st) = (Ok result, st2) →
  unfocused result = true →
  cond c2 false = true →
  alive st2 →
  focusedSentence st2 = Some f →
  positionIsEqual (end_ (Sentence.getRange (heap st2) f)) (start (range c2)) = false →
  iterateAdvanceFocus (S (S fuel)) cond cs verbose endPos st =
    (Throw (InconsistentState offFocus), died (ThrownString offFocus) (logged st2)).
Proof.
  intros Hk Hcs Hc Hadd Hunfocused Hc2 Ha Hf Hne.
  unfold iterateAdvanceFocus. unfold bind at 1. rewrite getFocusedPosition_focusPosition.
  rewrite Hcs. cbn [next advanceLoop]. rewrite Hc. cbn [negb].
  rewrite consoleLog_twice by done. unfold bind at 1. rewrite Hadd, Hunfocused.
  unfold bind at 1. rewrite getFocusedPosition_focusPosition. cbn [negb]. rewrite Hc2.
  cbn [negb]. pose proof Ha as (_ & _ & Hk2).
  assert (∀ it, (let '(nextCommand', commandIterator') := next it in
                 consoleLog "2" ;;
                 result0 <- addCommand c2 verbose ;;
                 (if unfocused result0
                  then
                    p <- getFocusedPosition ;;
                    advanceLoop fuel cond cs verbose endPos (negb (unfocused result0))
                      nextCommand' (cs p endPos)
                  else
                    advanceLoop fuel cond cs verbose endPos (negb (unfocused result0))
                      nextCommand' commandIterator'))
                = (consoleLog "2" ;;
                   result0 <- addCommand c2 verbose ;;
                   (if unfocused result0
                    then
                      p <- getFocusedPosition ;;
                      advanceLoop fuel cond cs verbose endPos (negb (unfocused result0))
                        (head it) (cs p endPos)
                    else
                      advanceLoop fuel cond cs verbose endPos (negb (unfocused result0))
                        (head it) (tail it)))) as -> by (by intros [|? ?]).
  rewrite consoleLog_twice by done. unfold bind at 1.
  by rewrite (addCommand_off_focus_dies (logged st2) c2 verbose f) by (by destruct st2).
Qed.

End Stale.

(** ** More scenarios on the scripted and the counting backend *)

Section MoreScenarios.

Import Examples MoreExamples.

Ltac run := repeat match goal with |- _ ∧ _ => split end; vm_compute; done.

(** X1, witnessed on the scripted backend, which hands out state 1. *)
Lemma lazy_initialisation_witness :
  ∃ st',
    validateState true (newMachine (mkScripted false 1 [] [])) = (Ok true, st') ∧
    root st' = Some 0 ∧ focusedSentence st' = Some 0 ∧ lastSentence st' = Some 0 ∧
    sentences st' = Some {[1 := 0]} ∧
    indexMirrorsTree st'.
Proof.
  destruct (lazy_initialisation (mkScripted false 1 [] []) (mkScripted true 1 [] []) 1)
    as (st' & Hrun & _ & Hroot & Hfocus & Hlast & Hindex & _ & _ & _ & Hmirror & _);
    [by vm_compute | by vm_compute |].
  exists st'. repeat match goal with |- _ ∧ _ => split end; assumption.
Defined.

(** X3, witnessed after a step and a disposal. *)
Lemma initialize_once_witness :
  initialize 7
    (foldl (λ s op, snd (perform op s)) (started [accept 2] [])
       [OpStepForward 10 parser false; OpDispose])
  = (Throw (ThrownString "STM is already initialized."),
     foldl (λ s op, snd (perform op s)) (started [accept 2] [])
       [OpStepForward 10 parser false; OpDispose]).
Proof.
  apply (initialize_once (started [accept 2] [])
           [OpStepForward 10 parser false; OpDispose] 7).
  vm_compute. by eexists.
Defined.

(** X5, witnessed on a machine whose backend is running from the start, so
    that no step initialises it. *)
Lemma reachable_unfocused_witness :
  root (foldl (λ s op, snd (perform op s)) uninitialised
          [OpStepForward 10 parser false; OpInterrupt]) = None ∧
  focusedSentence (foldl (λ s op, snd (perform op s)) uninitialised
                     [OpStepForward 10 parser false; OpInterrupt]) = None.
Proof.
  split; [by vm_compute|].
  apply (reachable_unfocused (mkScripted true 1 [] [])
           [OpStepForward 10 parser false; OpInterrupt]).
  by vm_compute.
Defined.

(** X8, witnessed on the machine that holds "A.". *)
Lemma events_after_dispose_witness :
  onCoqStateStatusUpdate 2 0 Processed "w" (exec dispose (afterA [] []))
    = (Throw TypeError, exec dispose (afterA [] [])) ∧
  onCoqClosed (Some "crash") (exec dispose (afterA [] []))
    = (Ok (), exec dispose (afterA [] [])).
Proof.
  destruct (events_after_dispose (afterA [] [])) as (_ & _ & _ & _ & Hclosed & Hstatus & _);
    [by vm_compute|].
  split; [apply Hstatus | apply Hclosed].
Defined.

(** X11, witnessed on a definition with a type annotation. *)
Lemma convertHypothesis_relation_witness :
  ∃ before after,
    " n := 2 : nat "%string = before +:+ ":=" +:+ after ∧
    hasColon before = false ∧
    "n"%string = trim before ∧
    proto.Text (Rich:=string) "2 : nat" = proto.Text (trim after).
Proof.
  destruct (convertHypothesis_relation (B:=Scripted)
              (coqProto.PlainText (Rich:=string) " n := 2 : nat ")
              (proto.mkHypothesis "n" ":=" (proto.Text "2 : nat"))
              uninitialised uninitialised)
    as (_ & before & after & Htext & Hbefore & _ & Hid & _ & _ & Hexpr);
    [by vm_compute|].
  by exists before, after.
Defined.

(** X13, witnessed on a parser whose only command starts behind the
    focus. *)
Lemma stepForward_idle_witness :
  stepForward 10 (λ _ _, [cmdB]) false (started [] []) = (Ok (), started [] []).
Proof.
  apply (stepForward_idle (started [] []) 10 (λ _ _, [cmdB]) false);
    [by vm_compute | by vm_compute |].
  intros c Hc. vm_compute in Hc. injection Hc as <-. by vm_compute.
Defined.

(** X14, witnessed on the first step through "A.B.C.D.". *)
Lemma stepForward_one_witness :
  stepForward 10 parser false (started [accept 2] []) =
    match addCommand cmdA false
            (set_trace (trace (started [accept 2] []) ++ [ConsoleLog "1"; ConsoleLog "2"])
               (started [accept 2] [])) with
    | (Ok _, st') => (Ok (), st')
    | (Throw e, st') => (Throw e, st')
    end.
Proof.
  apply (stepForward_one (started [accept 2] []) 9 parser false cmdA [cmdB; cmdC; cmdD]);
    [by vm_compute | by vm_compute | by vm_compute | by vm_compute | by vm_compute |].
  intros c Hc. vm_compute in Hc. injection Hc as <-. by vm_compute.
Defined.

(** X15, witnessed at the root. *)
Lemma stepBackward_spec_witness :
  stepBackward (started [] []) = (Ok (), started [] []).
Proof.
  destruct (stepBackward_spec (started [] []) 0) as [_ Hroot];
    [by vm_compute | by vm_compute | by vm_compute |].
  apply Hroot. by vm_compute.
Defined.

(** X16, witnessed on "A.", "B.", "C." and a position inside "B.". *)
Lemma interpretToPoint_back_witness :
  interpretToPoint 10 (pos 0 3) parser (afterABC [] [rewound]) =
    (parent <- getParentSentence (pos 0 3) ;; focusSentence parent) (afterABC [] [rewound]).
Proof.
  rewrite (interpretToPoint_back (afterABC [] [rewound]) 10 (pos 0 3) parser);
    [by vm_compute | by vm_compute | by vm_compute |].
  intros c Hc. vm_compute in Hc. injection Hc as <-. by vm_compute.
Defined.


(** X23, witnessed on an edit behind "A.". *)
Lemma applyChanges_after_last_witness :
  applyChanges [editBehindA] 1 (afterA [] []) = (Ok (), set_version 1 (afterA [] [])).
Proof.
  apply (applyChanges_after_last (afterA [] []) [editBehindA] 1 1);
    [by vm_compute | by vm_compute |].
  constructor; [by vm_compute | constructor].
Defined.


(** X18, witnessed on the scripted backend, which rejects with the string
    "no answer" when its script is used up. *)
Lemma addCommand_rejected_with_string_witness :
  addCommand cmdA false (started [] []) =
    (Throw (InconsistentState "no answer"),
     requested (CoqAddCommand "A." 0 1 false) (mkScripted true 1 [] []) (started [] [])).
Proof.
  apply (addCommand_rejected_with_string (started [] []) cmdA false 0 "no answer"
           (mkScripted true 1 [] []));
    by vm_compute.
Defined.


(** X17, witnessed on the counting backend and the document "A.B.C.D.". *)
Lemma iterateAdvanceFocus_terminates_witness :
  iterateAdvanceFocus 4 (λ _ _, true) parser false None counting
  = iterateAdvanceFocus 10 (λ _ _, true) parser false None counting.
Proof.
  apply (iterateAdvanceFocus_terminates counting (λ _ _, true) parser false None 4 10).
  - intros text version id verbose top top' value [= <- _]. reflexivity.
  - vm_compute. lia.
  - vm_compute. lia.
Defined.

(** X20, witnessed on an edit-at that the backend rejects with a string. *)
Lemma focusSentence_rejected_witness :
  focusSentence (Some 0) (afterA [] []) =
    (Ok (), requested (CoqEditAt 1) (mkScripted true 1 [] []) (afterA [] [])).
Proof.
  apply (focusSentence_rejected (afterA [] []) 0 (RejectString "no answer")
           (mkScripted true 1 [] []));
    [by vm_compute | by vm_compute].
Defined.

(** X2, witnessed on a machine whose backend has stopped. *)
Lemma validateState_restart_witness :
  validateState true stopped =
    (Throw (ThrownString "STM is already initialized."),
     requested ResetCoq (mkScripted true 1 [] []) stopped).
Proof.
  apply (validateState_restart stopped (inr 1) (mkScripted true 1 [] []));
    [by vm_compute | by vm_compute | by vm_compute | by eexists].
Defined.


(** X26, witnessed on [interpretToPoint] to the end of "A.B.C.D." after a
    jump into the proof: "B." is added again, the backend reports the
    unfocused state of "D.", and the loop goes on with "C.", which it had
    fetched before. *)
Lemma iterateAdvanceFocus_stale_command_witness :
  outcome (interpretToPoint 10 (pos 0 8) parser) patched
    = Throw (InconsistentState offFocus) ∧
  running (exec (interpretToPoint 10 (pos 0 8) parser) patched) = false.
Proof.
  assert (interpretToPoint 10 (pos 0 8) parser patched =
          (Throw (InconsistentState offFocus),
           died (ThrownString offFocus)
             (logged (exec (addCommand cmdB true) (logged patched))))) as Hrun.
  { unfold interpretToPoint. unfold bind at 1.
    assert (validateState true patched = (Ok true, patched)) as -> by (by vm_compute).
    unfold bind at 1.
    rewrite (iterateAdvanceFocus_stale_command patched
               (exec (addCommand cmdB true) (logged patched)) 8
               (λ command _, positionIsAfterOrEqual (pos 0 8) (end_ (range command)))
               parser true (Some (pos 0 8)) cmdB cmdC [cmdD] (mkAddResult 5 true) 4);
      by vm_compute. }
  unfold outcome, exec. rewrite Hrun. split; by vm_compute.
Defined.

End MoreScenarios.
